(** * aioredis: the sorted-set command mixin

    A shallow embedding of [aioredis/commands/sorted_set.py]: the argument
    validation, the encoding of range bounds, the command handed to the
    connection's [execute], and the decoding of replies.

    Python objects are a small tagged union, exceptions are values, and the
    connection is a log of the commands it was asked to execute. *)

From Stdlib Require Import ZArith NArith PeanoNat List String Ascii Bool Lia.
From Stdlib Require Import SpecFloat DecimalString DecimalN.
Import ListNotations.

Local Open Scope string_scope.
Local Open Scope list_scope.
Local Open Scope Z_scope.

(** ** Python objects *)

(** A Python [float] is an IEEE 754 binary64. *)
Definition prec : Z := 53.
Definition emax : Z := 1024.

(** The objects that reach this module.  [VBytes] holds the bytes of a
    [bytes] object; [VStr] holds the code points of a [str], restricted
    to code points below 256. *)
#[warnings="-register-all"]
Inductive obj : Type :=
| VNone
| VBool (b : bool)
| VInt (n : Z)
| VFloat (f : spec_float)
| VBytes (b : string)
| VStr (s : string)
| VList (l : list obj).

Inductive exn : Type :=
| TypeError (msg : string)
| ValueError (msg : string)
| OverflowError (msg : string)
| AssertionError (msg : string)
| NotImplementedError.

(** The outcome of evaluating an expression: an exception or a result. *)
Definition result (A : Type) : Type := (exn + A)%type.

Definition is_None (v : obj) : bool :=
  match v with VNone => true | _ => false end.

(** [isinstance(v, (t1, ..., tn))]; [bool] is a subclass of [int]. *)
Inductive pytype : Type := t_int | t_float | t_bytes | t_str.

Definition instance_of (v : obj) (t : pytype) : bool :=
  match t, v with
  | t_int, (VInt _ | VBool _) => true
  | t_float, VFloat _ => true
  | t_bytes, VBytes _ => true
  | t_str, VStr _ => true
  | _, _ => false
  end.

Definition isinstance (v : obj) (ts : list pytype) : bool :=
  existsb (instance_of v) ts.

(** *** Numbers *)

(** The number a numeric object denotes: not-a-number, an infinity, or
    the dyadic rational [m * 2^e]. *)
Inductive xnum : Type :=
| XNan
| XInf (negative : bool)
| XDyadic (m e : Z).

Definition xnum_of_float (f : spec_float) : xnum :=
  match f with
  | S754_zero _ => XDyadic 0 0
  | S754_infinity s => XInf s
  | S754_nan => XNan
  | S754_finite s m e => XDyadic (cond_Zopp s (Zpos m)) e
  end.

Definition as_xnum (v : obj) : option xnum :=
  match v with
  | VBool b => Some (XDyadic (Z.b2z b) 0)
  | VInt n => Some (XDyadic n 0)
  | VFloat f => Some (xnum_of_float f)
  | _ => None
  end.

(** Exact comparison; [None] when an operand is not-a-number. *)
Definition xcompare (a b : xnum) : option comparison :=
  match a, b with
  | XNan, _ | _, XNan => None
  | XInf s1, XInf s2 => Some (Bool.compare s2 s1)
  | XInf s, XDyadic _ _ => Some (if s then Lt else Gt)
  | XDyadic _ _, XInf s => Some (if s then Gt else Lt)
  | XDyadic m1 e1, XDyadic m2 e2 =>
      let e := Z.min e1 e2 in
      Some (Z.shiftl m1 (e1 - e) ?= Z.shiftl m2 (e2 - e))
  end.

(** [a > b] on int, bool and float operands.  Python compares an int
    with a float exactly, and every comparison with not-a-number is
    false.  The operator is only reached with numeric operands. *)
Definition py_gt (a b : obj) : result bool :=
  match as_xnum a, as_xnum b with
  | Some x, Some y =>
      inr (match xcompare x y with Some Gt => true | _ => false end)
  | _, _ => inl (TypeError "'>' not supported between these instances")
  end.

(** [float(n)] for an int: the nearest binary64, ties to even;
    OverflowError when that is beyond the largest finite float. *)
Definition float_of_int (n : Z) : result spec_float :=
  match binary_normalize prec emax n 0 false with
  | S754_infinity _ => inl (OverflowError "int too large to convert to float")
  | f => inr f
  end.

(** The C double that a [math] function sees for its argument. *)
Definition as_double (v : obj) : result spec_float :=
  match v with
  | VFloat f => inr f
  | VInt n => float_of_int n
  | VBool b => float_of_int (Z.b2z b)
  | _ => inl (TypeError "must be real number")
  end.

Definition is_infinity (f : spec_float) : bool :=
  match f with S754_infinity _ => true | _ => false end.

(** [math.isinf(v)]. *)
Definition math_isinf (v : obj) : result bool :=
  match as_double v with
  | inl e => inl e
  | inr f => inr (is_infinity f)
  end.

Definition pos_inf : obj := VFloat (S754_infinity false).
Definition neg_inf : obj := VFloat (S754_infinity true).

(** ** The connection *)

(** One call of [self._conn.execute(command, *args)]. *)
Record call : Type := Call { call_command : string; call_args : list obj }.

(** The connection is observed through the calls made to [execute],
    oldest first. *)
Definition conn : Type := list call.

(** The names of the reply converters handed to [wait_convert]. *)
Inductive converter : Type :=
| conv_int_or_float
| conv_pairs_int_or_float.

(** What a command method returns: the future of the [n]-th call of
    [execute], possibly wrapped with a converter for its reply. *)
Inductive future : Type :=
| Fut (n : nat)
| Converted (fut : future) (conv : converter).

(** A method body: it reads and extends the connection's log, and ends
    with an exception or a result. *)
Definition M (A : Type) : Type := conn -> result A * conn.

Definition ret {A : Type} (a : A) : M A := fun c => (inr a, c).

Definition raise {A : Type} (e : exn) : M A := fun c => (inl e, c).

Definition bind {A B : Type} (m : M A) (k : A -> M B) : M B :=
  fun c =>
    match m c with
    | (inl e, c') => (inl e, c')
    | (inr a, c') => k a c'
    end.

Definition lift {A : Type} (r : result A) : M A :=
  match r with inl e => raise e | inr a => ret a end.

Notation "x <- m ;; k" := (bind m (fun x => k))
  (at level 61, m at next level, right associativity).
Notation "m ;;; k" := (bind m (fun _ => k))
  (at level 61, right associativity).

(** [if cond: raise e]. *)
Definition raise_if (cond : bool) (e : exn) : M unit :=
  if cond then raise e else ret tt.

Definition execute (command : string) (args : list obj) : M future :=
  fun c => (inr (Fut (List.length c)), c ++ [Call command args]).

(** ** Text *)

Definition code (c : ascii) : Z := Z.of_N (N_of_ascii c).

(** The value of an ASCII decimal digit. *)
Definition digit_of (c : ascii) : option Z :=
  if (48 <=? code c) && (code c <=? 57) then Some (code c - 48) else None.

(** C's [isspace] in the C locale: space, \t, \n, \v, \f, \r. *)
Definition is_space (c : ascii) : bool :=
  (code c =? 32) || ((9 <=? code c) && (code c <=? 13)).

Fixpoint lstrip (s : string) : string :=
  match s with
  | String c s' => if is_space c then lstrip s' else s
  | EmptyString => s
  end.

Fixpoint rstrip (s : string) : string :=
  match s with
  | String c s' =>
      match rstrip s' with
      | EmptyString => if is_space c then EmptyString else String c EmptyString
      | r => String c r
      end
  | EmptyString => s
  end.

Definition strip (s : string) : string := rstrip (lstrip s).

(** An optional sign: whether it was a minus, and the rest. *)
Definition sign_of (s : string) : bool * string :=
  match s with
  | String "-" s' => (true, s')
  | String "+" s' => (false, s')
  | _ => (false, s)
  end.

(** The rest of a run of digits, single underscores allowed between
    two digits: the number read so far, how many digits, what follows. *)
Fixpoint digitpart_more (s : string) (acc n : Z) : Z * Z * string :=
  match s with
  | String c s' =>
      match digit_of c with
      | Some d => digitpart_more s' (10 * acc + d) (n + 1)
      | None =>
          if Ascii.eqb c "_" then
            match s' with
            | String c' s'' =>
                match digit_of c' with
                | Some d => digitpart_more s'' (10 * acc + d) (n + 1)
                | None => (acc, n, s)
                end
            | EmptyString => (acc, n, s)
            end
          else (acc, n, s)
      end
  | EmptyString => (acc, n, s)
  end.

(** [digit (["_"] digit)*]. *)
Definition digitpart (s : string) : option (Z * Z * string) :=
  match s with
  | String c s' =>
      match digit_of c with
      | Some d => Some (digitpart_more s' d 1)
      | None => None
      end
  | EmptyString => None
  end.

(** The default of [sys.int_max_str_digits]: [int] refuses a text
    with more digits, zeros in front counted, underscores not. *)
Definition int_max_str_digits : Z := 4300.

(** [int(text)] in base 10; [None] stands for ValueError, that of a
    text that is no integer literal and that of one with too many
    digits. *)
Definition int_of_text (s : string) : option Z :=
  let (neg, s1) := sign_of (strip s) in
  match digitpart s1 with
  | Some (n, k, EmptyString) =>
      if int_max_str_digits <? k then None else Some (cond_Zopp neg n)
  | _ => None
  end.

(** The ValueError of a text [int] refuses, its message up to the
    colon: the digits are counted before what follows them is looked
    at, unless an underscore follows them. *)
Definition int_text_error (s : string) : string :=
  match digitpart (snd (sign_of (strip s))) with
  | Some (_, k, rest) =>
      match rest with
      | String "_" _ => "invalid literal for int() with base 10"
      | _ =>
          if int_max_str_digits <? k
          then "Exceeds the limit (4300 digits) for integer string conversion"
          else "invalid literal for int() with base 10"
      end
  | None => "invalid literal for int() with base 10"
  end.

(** The binary64 nearest to [d * 10^x] for [0 <= d], ties to even. *)
Definition decimal_to_float (neg : bool) (d x : Z) : spec_float :=
  if d =? 0 then S754_zero neg
  else if 0 <=? x then
    binary_normalize prec emax (cond_Zopp neg (d * 10 ^ x)) 0 neg
  else
    let '(q, e, l) := SFdiv_core_binary prec emax d 0 (10 ^ (- x)) 0 in
    binary_round_aux prec emax neg q e l.

Definition lower (c : ascii) : ascii :=
  if (65 <=? code c) && (code c <=? 90)
  then ascii_of_N (N_of_ascii c + 32) else c.

Fixpoint lowercase (s : string) : string :=
  match s with
  | String c s' => String (lower c) (lowercase s')
  | EmptyString => s
  end.

(** [[digitpart] "." digitpart | digitpart ["."]]: the digits as one
    number, how many of them follow the point, and the rest. *)
Definition number_of (s : string) : option (Z * Z * string) :=
  match digitpart s with
  | Some (i, _, String "." r) =>
      match digitpart r with
      | Some (f, k, r') => Some (i * 10 ^ k + f, k, r')
      | None => Some (i, 0, r)
      end
  | Some (i, _, r) => Some (i, 0, r)
  | None =>
      match s with
      | String "." r =>
          match digitpart r with
          | Some (f, k, r') => Some (f, k, r')
          | None => None
          end
      | _ => None
      end
  end.

(** [[("e" | "E") [sign] digitpart]]: the exponent and the rest. *)
Definition exponent_of (s : string) : option (Z * string) :=
  match s with
  | String c r =>
      if Ascii.eqb (lower c) "e" then
        let (neg, r1) := sign_of r in
        match digitpart r1 with
        | Some (n, _, r2) => Some (cond_Zopp neg n, r2)
        | None => None
        end
      else Some (0, s)
  | EmptyString => Some (0, s)
  end.

(** [float(text)]; [None] stands for ValueError. *)
Definition float_of_text (s : string) : option spec_float :=
  let (neg, s1) := sign_of (strip s) in
  let w := lowercase s1 in
  if (w =? "inf")%string || (w =? "infinity")%string then Some (S754_infinity neg)
  else if (w =? "nan")%string then Some S754_nan
  else
    match number_of s1 with
    | Some (d, k, s2) =>
        match exponent_of s2 with
        | Some (x, EmptyString) => Some (decimal_to_float neg d (x - k))
        | _ => None
        end
    | None => None
    end.

(** A [str] is first brought to ASCII: a code point of 128 or more
    becomes a space when it is white space (U+0085, U+00A0) and is
    rejected otherwise; there is no decimal digit from 128 to 255. *)
Definition to_ascii_char (c : ascii) : ascii :=
  if code c <? 128 then c
  else if (code c =? 133) || (code c =? 160) then " "%char else "?"%char.

Fixpoint to_ascii (s : string) : string :=
  match s with
  | String c s' => String (to_ascii_char c) (to_ascii s')
  | EmptyString => s
  end.

(** *** [str] of numbers *)

(** The decimal digits of a natural number. *)
Definition digits (n : Z) : string := NilZero.string_of_uint (N.to_uint (Z.to_N n)).

(** [str(n)] for an int. *)
Definition str_of_int (n : Z) : string :=
  if n <? 0 then "-" ++ digits (- n) else digits n.

(** How many digits [str(n)] has, its sign left out. *)
Definition int_digits (n : Z) : Z :=
  Z.of_nat (String.length (digits (Z.abs n))).

Definition float_eqb (a b : spec_float) : bool :=
  match a, b with
  | S754_zero s1, S754_zero s2 => Bool.eqb s1 s2
  | S754_infinity s1, S754_infinity s2 => Bool.eqb s1 s2
  | S754_nan, S754_nan => true
  | S754_finite s1 m1 e1, S754_finite s2 m2 e2 =>
      Bool.eqb s1 s2 && Pos.eqb m1 m2 && (e1 =? e2)
  | _, _ => false
  end.

(** [m * 2^e / 10^k] as a fraction of two positive integers. *)
Definition scaled (m : positive) (e k : Z) : Z * Z :=
  let n0 := if 0 <=? e then Z.shiftl (Zpos m) e else Zpos m in
  let d0 := if 0 <=? e then 1 else Z.shiftl 1 (- e) in
  if 0 <=? k then (n0, d0 * 10 ^ k) else (n0 * 10 ^ (- k), d0).

(** The position of the decimal point: the least [k] from [k0] on with
    [n / d < 10^(k - k0)]. *)
Fixpoint find_decpt (fuel : nat) (n d k0 : Z) : Z :=
  match fuel with
  | O => k0
  | S fuel' => if n <? d then k0 else find_decpt fuel' n (10 * d) (k0 + 1)
  end.

(** Every finite binary64 lies between [10^-324] and [10^309]. *)
Definition decpt (m : positive) (e : Z) : Z :=
  let (n, d) := scaled m e (-324) in find_decpt 640 n d (-324).

(** The decimal [c * 10^k] of [n] significant digits nearest to
    [m * 2^e] among those that [float] reads back as [m * 2^e]; [dp]
    is the position of the decimal point.  When the two candidates
    are equally near, the one with the even last digit is taken. *)
Definition nearest_of (dp n : Z) (m : positive) (e : Z) : option (Z * Z) :=
  let k := dp - n in
  let (num, den) := scaled m e k in
  let lo := num / den in
  let hi := lo + 1 in
  let back c := float_eqb (decimal_to_float false c k) (S754_finite false m e) in
  match back lo, back hi with
  | true, true =>
      match 2 * (num mod den) ?= den with
      | Lt => Some (lo, k)
      | Gt => Some (hi, k)
      | Eq => Some (if Z.even lo then lo else hi, k)
      end
  | true, false => Some (lo, k)
  | false, true => Some (hi, k)
  | false, false => None
  end.

(** The shortest such decimal: 1 significant digit, then 2, ... *)
Fixpoint shortest (fuel : nat) (dp n : Z) (m : positive) (e : Z) : Z * Z :=
  match fuel with
  | O => let (num, den) := scaled m e (dp - n) in (num / den, dp - n)
  | S fuel' =>
      match nearest_of dp n m e with
      | Some ck => ck
      | None => shortest fuel' dp (n + 1) m e
      end
  end.

(** Drop the zeros at the end of [c], counting them into [k]. *)
Fixpoint drop_zeros (fuel : nat) (c k : Z) : Z * Z :=
  match fuel with
  | O => (c, k)
  | S fuel' =>
      if (c mod 10 =? 0) && negb (c =? 0)
      then drop_zeros fuel' (c / 10) (k + 1) else (c, k)
  end.

Fixpoint zeros (n : nat) : string :=
  match n with
  | O => EmptyString
  | S n' => String "0" (zeros n')
  end.

(** The exponent of the scientific form: a sign and two digits at least. *)
Definition exponent_text (x : Z) : string :=
  (if x <? 0 then "e-" else "e+") ++
  (if Z.abs x <? 10 then "0" else "") ++ digits (Z.abs x).

(** The digits [ds], read as [0.ds * 10^dp], the way [repr] lays them
    out: scientific from [1e16] on and below [1e-4], positional
    otherwise. *)
Definition layout (ds : string) (dp : Z) : string :=
  let n := Z.of_nat (String.length ds) in
  if (dp <=? -4) || (16 <? dp) then
    match ds with
    | String d EmptyString => String d (exponent_text (dp - 1))
    | String d rest => String d ("." ++ rest ++ exponent_text (dp - 1))
    | EmptyString => ds
    end
  else if dp <=? 0 then "0." ++ zeros (Z.to_nat (- dp)) ++ ds
  else if n <=? dp then ds ++ zeros (Z.to_nat (dp - n)) ++ ".0"
  else substring 0 (Z.to_nat dp) ds ++ "." ++
       substring (Z.to_nat dp) (Z.to_nat (n - dp)) ds.

(** [repr(f)], which is also [str(f)]: the shortest decimal that reads
    back as [f]; 17 significant digits identify any binary64. *)
Definition float_repr (f : spec_float) : string :=
  match f with
  | S754_nan => "nan"
  | S754_infinity s => if s then "-inf" else "inf"
  | S754_zero s => if s then "-0.0" else "0.0"
  | S754_finite s m e =>
      let (c0, k0) := shortest 17 (decpt m e) 1 m e in
      let (c, k) := drop_zeros 17 c0 k0 in
      let ds := digits c in
      (if s then "-" else "") ++ layout ds (k + Z.of_nat (String.length ds))
  end.

(** [str(v)] for the numeric objects.  No other object reaches it:
    [math.isinf] has raised TypeError before. *)
Definition py_str (v : obj) : string :=
  match v with
  | VBool b => if b then "True" else "False"
  | VInt n => str_of_int n
  | VFloat f => float_repr f
  | _ => EmptyString
  end.

(** [s.encode('utf-8')] for code points below 256. *)
Fixpoint encode_utf8 (s : string) : string :=
  match s with
  | String c s' =>
      if code c <? 128 then String c (encode_utf8 s')
      else
        String (ascii_of_N (Z.to_N (Z.lor 192 (Z.shiftr (code c) 6))))
          (String (ascii_of_N (Z.to_N (Z.lor 128 (Z.land (code c) 63))))
             (encode_utf8 s'))
  | EmptyString => s
  end.

(** *** [int] and [float] of an object *)

(** The ASCII text that [int] and [float] parse, for a str or bytes. *)
Definition text_of (v : obj) : option string :=
  match v with
  | VBytes b => Some b
  | VStr s => Some (to_ascii s)
  | _ => None
  end.

(** The integer part of a float, towards zero. *)
Definition trunc (f : spec_float) : result Z :=
  match f with
  | S754_zero _ => inr 0
  | S754_finite s m e => inr (cond_Zopp s (Z.shiftl (Zpos m) e))
  | S754_infinity _ => inl (OverflowError "cannot convert float infinity to integer")
  | S754_nan => inl (ValueError "cannot convert float NaN to integer")
  end.

(** [int(v)]. *)
Definition py_int (v : obj) : result obj :=
  match v with
  | VInt n => inr (VInt n)
  | VBool b => inr (VInt (Z.b2z b))
  | VFloat f => match trunc f with inl e => inl e | inr n => inr (VInt n) end
  | VBytes _ | VStr _ =>
      match text_of v with
      | Some t =>
          match int_of_text t with
          | Some n => inr (VInt n)
          | None => inl (ValueError (int_text_error t))
          end
      | None => inl (TypeError "int() argument must be a string or a number")
      end
  | _ => inl (TypeError "int() argument must be a string or a number")
  end.

(** [float(v)]. *)
Definition py_float (v : obj) : result obj :=
  match v with
  | VBytes _ | VStr _ =>
      match text_of v with
      | Some t =>
          match float_of_text t with
          | Some f => inr (VFloat f)
          | None => inl (ValueError "could not convert string to float")
          end
      | None => inl (TypeError "float() argument must be a string or a number")
      end
  | _ => match as_double v with inl e => inl e | inr f => inr (VFloat f) end
  end.

(** ** Reply decoders *)

Definition int_or_float (value : obj) : result obj :=
  if negb (isinstance value [t_str; t_bytes])
  then inl (AssertionError "raw_value must be bytes")
  else
    match py_int value with
    | inl (ValueError _) => py_float value
    | r => r
    end.

(** [iter(v)]: the objects the iterator yields. *)
Definition py_iter (v : obj) : result (list obj) :=
  match v with
  | VList l => inr l
  | VBytes b => inr (map (fun c => VInt (code c)) (list_ascii_of_string b))
  | VStr s => inr (map (fun c => VStr (String c EmptyString)) (list_ascii_of_string s))
  | _ => inl (TypeError "object is not iterable")
  end.

(** [zip(it, it)] on one iterator: consecutive objects in pairs, an
    unpaired last one dropped. *)
Fixpoint zip_it_it (l : list obj) : list (obj * obj) :=
  match l with
  | a :: b :: r => (a, b) :: zip_it_it r
  | _ => []
  end.

(** [sum(([val, int_or_float(score)] for val, score in pairs), acc)]. *)
Fixpoint sum_pairs (pairs : list (obj * obj)) (acc : list obj)
  : result (list obj) :=
  match pairs with
  | [] => inr acc
  | (val, score) :: r =>
      match int_or_float score with
      | inl e => inl e
      | inr x => sum_pairs r (acc ++ [val; x])
      end
  end.

Definition pairs_int_or_float (value : obj) : result obj :=
  match py_iter value with
  | inl e => inl e
  | inr it =>
      match sum_pairs (zip_it_it it) [] with
      | inl e => inl e
      | inr l => inr (VList l)
      end
  end.

(** The function a converter name stands for. *)
Definition convert (conv : converter) : obj -> result obj :=
  match conv with
  | conv_int_or_float => int_or_float
  | conv_pairs_int_or_float => pairs_int_or_float
  end.

(** Modelled from the spec: [wait_convert] of [aioredis.util], which
    the sources at hand import but do not contain.  The pending result
    is post-processed by the converter once it is resolved. *)
Definition wait_convert (fut : future) (conv : converter) : future :=
  Converted fut conv.

(** ** Bounds and paging *)

(** The statement each score-range method applies to a bound [b]:
    [if not include and not math.isinf(b):
         b = ("(" + str(b)).encode('utf-8')];
    the result is [b] afterwards. *)
Definition score_bound (include : bool) (b : obj) : M obj :=
  if negb include then
    inf <- lift (math_isinf b) ;;
    if negb inf then ret (VBytes (encode_utf8 ("(" ++ py_str b))) else ret b
  else ret b.

(** [b == sentinel] for a bytes literal [sentinel]. *)
Definition eq_bytes (b : obj) (sentinel : string) : bool :=
  match b with
  | VBytes s => (s =? sentinel)%string
  | _ => false
  end.

(** [prefix + b] for a bytes literal [prefix]. *)
Definition add_bytes (prefix : string) (b : obj) : result obj :=
  match b with
  | VBytes s => inr (VBytes (prefix ++ s))
  | _ => inl (TypeError "can't concat")
  end.

(** The statement each lexicographic method applies to a bound [b]:
    [if not b == sentinel: b = (b'[' if include else b'(') + b]. *)
Definition lex_bound (sentinel : string) (include : bool) (b : obj) : M obj :=
  if negb (eq_bytes b sentinel)
  then lift (add_bytes (if include then "[" else "(") b)
  else ret b.

(** The three checks on [offset] and [count] that the paged methods
    share. *)
Definition check_offset_count (offset count : obj) : M unit :=
  raise_if ((negb (is_None offset) && is_None count) ||
            (negb (is_None count) && is_None offset))
    (TypeError "offset and count must both be specified") ;;;
  raise_if (negb (is_None offset) && negb (isinstance offset [t_int]))
    (TypeError "offset argument must be int") ;;;
  raise_if (negb (is_None count) && negb (isinstance count [t_int]))
    (TypeError "count argument must be int").

(** [args.extend([b'LIMIT', offset, count])] when both are given. *)
Definition extend_limit (args : list obj) (offset count : obj) : list obj :=
  if negb (is_None offset) && negb (is_None count)
  then args ++ [VBytes "LIMIT"; offset; count]
  else args.

(** ** The commands *)

(** [(item for i, item in enumerate(pairs) if i % 2 == 0)]. *)
Definition enumerate (l : list obj) : list (nat * obj) :=
  combine (seq 0 (List.length l)) l.

Definition even_items (pairs : list obj) : list obj :=
  map snd (filter (fun p => Nat.eqb (fst p mod 2) 0) (enumerate pairs)).

Definition zadd (key score member : obj) (pairs : list obj) : M future :=
  raise_if (is_None key) (TypeError "key argument must not be None") ;;;
  raise_if (negb (isinstance score [t_int; t_float]))
    (TypeError "score argument must be int or float") ;;;
  raise_if (negb (Nat.eqb (List.length pairs mod 2) 0))
    (TypeError "length of pairs must be even number") ;;;
  let scores := even_items pairs in
  raise_if (existsb (fun s => negb (isinstance s [t_int; t_float])) scores)
    (TypeError "all scores must be int or float") ;;;
  execute "ZADD" (key :: score :: member :: pairs).

Definition zcount (key min max : obj) (include_min include_max : bool)
  : M future :=
  raise_if (is_None key) (TypeError "key argument must not be None") ;;;
  raise_if (negb (isinstance min [t_int; t_float]))
    (TypeError "min argument must be int or float") ;;;
  raise_if (negb (isinstance max [t_int; t_float]))
    (TypeError "max argument must be int or float") ;;;
  gt <- lift (py_gt min max) ;;
  raise_if gt (ValueError "min could not be grater then max") ;;;
  min <- score_bound include_min min ;;
  max <- score_bound include_max max ;;
  execute "ZCOUNT" [key; min; max].

Definition zincrby (key increment member : obj) : M future :=
  raise_if (is_None key) (TypeError "key argument must not be None") ;;;
  raise_if (negb (isinstance increment [t_int; t_float]))
    (TypeError "increment argument must be int or float") ;;;
  fut <- execute "ZINCRBY" [key; increment; member] ;;
  ret (wait_convert fut conv_int_or_float).

Definition zinterstore (destkey numkeys key : obj) (keys : list obj)
  : M future :=
  raise NotImplementedError.

Definition zlexcount (key min max : obj) (include_min include_max : bool)
  : M future :=
  raise_if (is_None key) (TypeError "key argument must not be None") ;;;
  raise_if (negb (isinstance min [t_bytes]))
    (TypeError "min argument must be bytes") ;;;
  raise_if (negb (isinstance max [t_bytes]))
    (TypeError "max argument must be bytes") ;;;
  min <- lex_bound "-" include_min min ;;
  max <- lex_bound "+" include_max max ;;
  execute "ZLEXCOUNT" [key; min; max].

Definition zrange (key start stop : obj) (withscores : bool) : M future :=
  raise_if (is_None key) (TypeError "key argument must not be None") ;;;
  raise_if (negb (isinstance start [t_int]))
    (TypeError "start argument must be int") ;;;
  raise_if (negb (isinstance stop [t_int]))
    (TypeError "stop argument must be int") ;;;
  let args := if withscores then [VBytes "WITHSCORES"] else [] in
  fut <- execute "ZRANGE" ([key; start; stop] ++ args) ;;
  if withscores then ret (wait_convert fut conv_pairs_int_or_float)
  else ret fut.

Definition zrangebylex (key min max : obj) (include_min include_max : bool)
  (offset count : obj) : M future :=
  raise_if (is_None key) (TypeError "key argument must not be None") ;;;
  raise_if (negb (isinstance min [t_bytes]))
    (TypeError "min argument must be bytes") ;;;
  raise_if (negb (isinstance max [t_bytes]))
    (TypeError "max argument must be bytes") ;;;
  min <- lex_bound "-" include_min min ;;
  max <- lex_bound "+" include_max max ;;
  check_offset_count offset count ;;;
  let args := extend_limit [] offset count in
  execute "ZRANGEBYLEX" ([key; min; max] ++ args).

Definition zrangebyscore (key min max : obj) (include_min include_max : bool)
  (withscores : bool) (offset count : obj) : M future :=
  raise_if (is_None key) (TypeError "key argument must not be None") ;;;
  raise_if (negb (isinstance min [t_int; t_float]))
    (TypeError "min argument must be int or float") ;;;
  raise_if (negb (isinstance max [t_int; t_float]))
    (TypeError "max argument must be int or float") ;;;
  check_offset_count offset count ;;;
  min <- score_bound include_min min ;;
  max <- score_bound include_max max ;;
  let args := if withscores then [VBytes "WITHSCORES"] else [] in
  let args := extend_limit args offset count in
  fut <- execute "ZRANGEBYSCORE" ([key; min; max] ++ args) ;;
  if withscores then ret (wait_convert fut conv_pairs_int_or_float)
  else ret fut.

Definition zremrangebylex (key min max : obj)
  (include_min include_max : bool) : M future :=
  raise_if (is_None key) (TypeError "key argument must not be None") ;;;
  raise_if (negb (isinstance min [t_bytes]))
    (TypeError "min argument must be bytes") ;;;
  raise_if (negb (isinstance max [t_bytes]))
    (TypeError "max argument must be bytes") ;;;
  min <- lex_bound "-" include_min min ;;
  max <- lex_bound "+" include_max max ;;
  execute "ZREMRANGEBYLEX" [key; min; max].

Definition zremrangebyscore (key min max : obj)
  (include_min include_max : bool) : M future :=
  raise_if (is_None key) (TypeError "key argument must not be None") ;;;
  raise_if (negb (isinstance min [t_int; t_float]))
    (TypeError "min argument must be int or float") ;;;
  raise_if (negb (isinstance max [t_int; t_float]))
    (TypeError "max argument must be int or float") ;;;
  min <- score_bound include_min min ;;
  max <- score_bound include_max max ;;
  execute "ZREMRANGEBYSCORE" [key; min; max].

Definition zrevrange (key start stop : obj) (withscores : bool) : M future :=
  raise_if (is_None key) (TypeError "key argument must not be None") ;;;
  raise_if (negb (isinstance start [t_int]))
    (TypeError "start argument must be int") ;;;
  raise_if (negb (isinstance stop [t_int]))
    (TypeError "stop argument must be int") ;;;
  let args := if withscores then [VBytes "WITHSCORES"] else [] in
  fut <- execute "ZREVRANGE" ([key; start; stop] ++ args) ;;
  if withscores then ret (wait_convert fut conv_pairs_int_or_float)
  else ret fut.

(** The parameters come in the order of the signature: [max] before
    [min]. *)
Definition zrevrangebyscore (key max min : obj)
  (include_min include_max : bool) (withscores : bool) (offset count : obj)
  : M future :=
  raise_if (is_None key) (TypeError "key argument must not be None") ;;;
  raise_if (negb (isinstance min [t_int; t_float]))
    (TypeError "min argument must be int or float") ;;;
  raise_if (negb (isinstance max [t_int; t_float]))
    (TypeError "max argument must be int or float") ;;;
  check_offset_count offset count ;;;
  min <- score_bound include_min min ;;
  max <- score_bound include_max max ;;
  let args := if withscores then [VBytes "WITHSCORES"] else [] in
  let args := extend_limit args offset count in
  fut <- execute "ZREVRANGEBYSCORE" ([key; min; max] ++ args) ;;
  if withscores then ret (wait_convert fut conv_pairs_int_or_float)
  else ret fut.

Definition zscore (key member : obj) : M future :=
  raise_if (is_None key) (TypeError "key argument must not be None") ;;;
  fut <- execute "ZSCORE" [key; member] ;;
  ret (wait_convert fut conv_int_or_float).

Definition zunionstore (destkey numkeys key : obj) (keys : list obj)
  : M future :=
  raise NotImplementedError.

(** *** The commands that only check the key, and the scan *)

Definition zcard (key : obj) : M future :=
  raise_if (is_None key) (TypeError "key argument must not be None") ;;;
  execute "ZCARD" [key].

Definition zrank (key member : obj) : M future :=
  raise_if (is_None key) (TypeError "key argument must not be None") ;;;
  execute "ZRANK" [key; member].

Definition zrem (key member : obj) (members : list obj) : M future :=
  raise_if (is_None key) (TypeError "key argument must not be None") ;;;
  execute "ZREM" (key :: member :: members).

Definition zremrangebyrank (key start stop : obj) : M future :=
  raise_if (is_None key) (TypeError "key argument must not be None") ;;;
  raise_if (negb (isinstance start [t_int]))
    (TypeError "start argument must be int") ;;;
  raise_if (negb (isinstance stop [t_int]))
    (TypeError "stop argument must be int") ;;;
  execute "ZREMRANGEBYRANK" [key; start; stop].

Definition zrevrank (key member : obj) : M future :=
  raise_if (is_None key) (TypeError "key argument must not be None") ;;;
  execute "ZREVRANK" [key; member].

(** The exceptions of the scan converter: those above, and the
    IndexError of a subscript out of range. *)
Inductive scan_exn : Type :=
| Raised (e : exn)
| IndexError (msg : string).

(** [v[i]] for a constant index [i >= 0]. *)
Definition getitem (v : obj) (i : nat) : scan_exn + obj :=
  match v with
  | VList l =>
      match nth_error l i with
      | Some x => inr x
      | None => inl (IndexError "list index out of range")
      end
  | VBytes b =>
      match String.get i b with
      | Some ch => inr (VInt (code ch))
      | None => inl (IndexError "index out of range")
      end
  | VStr s =>
      match String.get i s with
      | Some ch => inr (VStr (String ch EmptyString))
      | None => inl (IndexError "string index out of range")
      end
  | _ => inl (Raised (TypeError "object is not subscriptable"))
  end.

(** [_converter = lambda obj: (int(obj[0]), pairs_int_or_float(obj[1]))]
    of [zscan]; the tuple is a pair. *)
Definition zscan_converter (reply : obj) : scan_exn + (obj * obj) :=
  match getitem reply 0 with
  | inl e => inl e
  | inr first =>
      match py_int first with
      | inl e => inl (Raised e)
      | inr cursor =>
          match getitem reply 1 with
          | inl e => inl e
          | inr second =>
              match pairs_int_or_float second with
              | inl e => inl (Raised e)
              | inr page => inr (cursor, page)
              end
          end
      end
  end.

(** What [zscan] returns: [wait_convert(fut, _converter)]. *)
Inductive scan_future : Type :=
| ScanConverted (fut : future).

(** The parameter [match] is spelled [match_]. *)
Definition zscan (key cursor match_ count : obj) : M scan_future :=
  raise_if (is_None key) (TypeError "key argument must not be None") ;;;
  let args := [] in
  let args :=
    if negb (is_None match_) then args ++ [VBytes "MATCH"; match_] else args in
  let args :=
    if negb (is_None count) then args ++ [VBytes "COUNT"; count] else args in
  fut <- execute "ZSCAN" ([key; cursor] ++ args) ;;
  ret (ScanConverted fut).

(** ** The specification's encoders *)

Definition is_infinite (b : obj) : bool :=
  match b with
  | VFloat f => is_infinity f
  | _ => false
  end.

(** The bound encoder as the specification words it: a finite exclusive
    bound is "(" followed by the text of the number, a finite inclusive
    bound is the number itself, an infinite bound passes through
    whatever the flag. *)
Definition spec_score_bound (inclusive : bool) (b : obj) : obj :=
  if is_infinite b then b
  else if inclusive then b
  else VBytes ("(" ++ py_str b).

(** The lexicographic encoder as the specification words it: the
    sentinel passes through, any other bound is prefixed with "[" when
    inclusive and "(" when exclusive. *)
Definition spec_lex_bound (sentinel : string) (inclusive : bool) (b : string)
  : string :=
  if (b =? sentinel)%string then b
  else if inclusive then "[" ++ b
  else "(" ++ b.

(** The modifier flags that follow the bounds: WITHSCORES when scores
    are asked for, then LIMIT with offset and count when both are
    given. *)
Definition modifiers (withscores : bool) (offset count : obj) : list obj :=
  (if withscores then [VBytes "WITHSCORES"] else []) ++
  (if is_None offset || is_None count then []
   else [VBytes "LIMIT"; offset; count]).

(** [offset] and [count] are both left out or both ints. *)
Definition paging_ok (offset count : obj) : bool :=
  (is_None offset && is_None count) ||
  (isinstance offset [t_int] && isinstance count [t_int]).

(** Exactly one of [offset] and [count] is left out. *)
Definition one_missing (offset count : obj) : bool :=
  xorb (is_None offset) (is_None count).

(** The future a ranged read returns for its [n]-th call. *)
Definition ranged_future (withscores : bool) (n : nat) : future :=
  if withscores then wait_convert (Fut n) conv_pairs_int_or_float else Fut n.

(** The documented reasons for [zadd] to refuse its arguments. *)
Definition zadd_rejects (key score : obj) (pairs : list obj) : Prop :=
  key = VNone \/
  isinstance score [t_int; t_float] = false \/
  Nat.odd (List.length pairs) = true \/
  exists i v,
    Nat.even i = true /\ nth_error pairs i = Some v /\
    isinstance v [t_int; t_float] = false.

(** The log after a score-range read: untouched when it raised, one
    more call when it returned. *)
Definition range_log (command : string) (key emin emax : obj)
  (flags : list obj) (c : conn) (out : result future * conn) : Prop :=
  match out with
  | (inl _, c') => c' = c
  | (inr _, c') => c' = c ++ [Call command ([key; emin; emax] ++ flags)]
  end.

(** The log after a paged read: untouched when it raised, one more
    call whose arguments end with [tail] when it returned. *)
Definition ends_with (tail : list obj) (c : conn)
  (out : result future * conn) : Prop :=
  match out with
  | (inl _, c') => c' = c
  | (inr _, c') =>
      exists command args, c' = c ++ [Call command (args ++ tail)]
  end.

(** A flat reply [m1, s1, m2, s2, ...] from its pairs. *)
Fixpoint flat (pairs : list (obj * obj)) : list obj :=
  match pairs with
  | [] => []
  | (m, s) :: r => m :: s :: flat r
  end.

(** The score of a pair decodes to the number [d]. *)
Definition decoded (pair : obj * obj) (d : obj) : Prop :=
  int_or_float (snd pair) = inr d.

(** An int beyond the range of a float. *)
Definition huge_int : obj := VInt (2 ^ 1024).

(** Whether [math.isinf] accepts the number: a float, or an int (or
    bool) that converts to a float without overflow. *)
Definition fits_float (b : obj) : bool :=
  match as_double b with
  | inr _ => true
  | inl _ => false
  end.

(** No white space anywhere in the text. *)
Fixpoint no_space (s : string) : bool :=
  match s with
  | String c s' => negb (is_space c) && no_space s'
  | EmptyString => true
  end.

(** Every character is below 128. *)
Fixpoint ascii_only (s : string) : bool :=
  match s with
  | String c s' => (code c <? 128) && ascii_only s'
  | EmptyString => true
  end.

(** The float 10.5, that is [21 * 2^-1]. *)
Definition ten_and_a_half : spec_float := binary_normalize prec emax 21 (-1) false.

(** A method ended with the exception [e] and executed nothing. *)
Definition raises {A : Type} (m : M A) (c : conn) (e : exn) : Prop :=
  m c = (inl e, c).

(** A method executed exactly one command and returned [r]. *)
Definition sends {A : Type} (m : M A) (c : conn) (command : string)
  (args : list obj) (r : A) : Prop :=
  m c = (inr r, c ++ [Call command args]).

(** ** What the further properties speak of *)

(** The call a future stands for. *)
Fixpoint call_of (fut : future) : nat :=
  match fut with
  | Fut n => n
  | Converted fut' _ => call_of fut'
  end.

Definition scan_call_of (fut : scan_future) : nat :=
  match fut with ScanConverted fut' => call_of fut' end.

(** A method body that either raises an exception among [allowed]
    before it executes anything, or executes exactly one command and
    returns the future of that call. *)
Definition one_call {A : Type} (index : A -> nat) (allowed : exn -> Prop)
  (m : M A) : Prop :=
  forall c,
    (exists e, allowed e /\ m c = (inl e, c)) \/
    (exists command args r,
       m c = (inr r, c ++ [Call command args]) /\ index r = List.length c).

Definition type_error (e : exn) : Prop := exists msg, e = TypeError msg.

(** The exceptions of a score-range command: a TypeError, or the
    OverflowError of an exclusive int bound beyond the floats. *)
Definition range_error (include_min include_max : bool) (min max : obj)
  (e : exn) : Prop :=
  type_error e \/
  (e = OverflowError "int too large to convert to float" /\
   ((include_min = false /\ fits_float min = false) \/
    (include_max = false /\ fits_float max = false))).

(** The exceptions of [zcount]: those, or the ValueError of min > max. *)
Definition count_error (include_min include_max : bool) (min max : obj)
  (e : exn) : Prop :=
  range_error include_min include_max min max e \/
  (e = ValueError "min could not be grater then max" /\
   py_gt min max = inr true).

(** The result of a decoder is an int or a float proper. *)
Definition is_number (d : obj) : bool :=
  match d with VInt _ | VFloat _ => true | _ => false end.

(** Two outcomes that differ at most in the name of the command sent:
    the same exception or future, the same arguments on the wire. *)
Definition same_but_command (x y : result future * conn) : Prop :=
  fst x = fst y /\ map call_args (snd x) = map call_args (snd y).

(** The options of a scan that follow the cursor. *)
Definition scan_options (pattern count : obj) : list obj :=
  (if is_None pattern then [] else [VBytes "MATCH"; pattern]) ++
  (if is_None count then [] else [VBytes "COUNT"; count]).

(** The exception for an offset or a count of the wrong type. *)
Definition paging_type_error (offset count : obj) : exn :=
  if isinstance offset [t_int]
  then TypeError "count argument must be int"
  else TypeError "offset argument must be int".

(** * Properties *)

(** ** Running a method body *)

Lemma bind_ret {A B : Type} (a : A) (k : A -> M B) (c : conn) :
  bind (ret a) k c = k a c.
Proof. reflexivity. Qed.

Lemma bind_raise {A B : Type} (e : exn) (k : A -> M B) (c : conn) :
  bind (raise e) k c = (inl e, c).
Proof. reflexivity. Qed.

Lemma bind_raise_if_true {B : Type} (e : exn) (k : unit -> M B) (c : conn) :
  bind (raise_if true e) k c = (inl e, c).
Proof. reflexivity. Qed.

Lemma bind_raise_if_false {B : Type} (e : exn) (k : unit -> M B) (c : conn) :
  bind (raise_if false e) k c = k tt c.
Proof. reflexivity. Qed.

Lemma bind_execute {B : Type} (command : string) (args : list obj)
  (k : future -> M B) (c : conn) :
  bind (execute command args) k c =
  k (Fut (List.length c)) (c ++ [Call command args]).
Proof. reflexivity. Qed.

Lemma bind_returns {A B : Type} (m : M A) (k : A -> M B) (c c' : conn) (a : A) :
  m c = (inr a, c') -> bind m k c = k a c'.
Proof. intro H. unfold bind. rewrite H. reflexivity. Qed.

Lemma bind_fails {A B : Type} (m : M A) (k : A -> M B) (c c' : conn) (e : exn) :
  m c = (inl e, c') -> bind m k c = (inl e, c').
Proof. intro H. unfold bind. rewrite H. reflexivity. Qed.

Ltac step :=
  first
    [ rewrite bind_raise_if_true
    | rewrite bind_raise_if_false
    | rewrite bind_ret
    | rewrite bind_raise
    | rewrite bind_execute ].

Ltac run := repeat step; cbn beta iota.

(** ** The text of a number is ASCII *)

Lemma encode_utf8_ascii (s : string) :
  ascii_only s = true -> encode_utf8 s = s.
Proof.
  induction s as [| ch s IH]; simpl; intro H.
  - reflexivity.
  - apply andb_prop in H. destruct H as [Hc Hs].
    rewrite Hc, (IH Hs). reflexivity.
Qed.

Lemma ascii_only_app (s t : string) :
  ascii_only s = true -> ascii_only t = true ->
  ascii_only (s ++ t) = true.
Proof.
  induction s as [| ch s IH]; simpl; intros Hs Ht.
  - exact Ht.
  - apply andb_prop in Hs. destruct Hs as [Hc Hs].
    rewrite Hc. simpl. apply IH; assumption.
Qed.

Lemma ascii_only_substring (s : string) :
  ascii_only s = true ->
  forall n m, ascii_only (substring n m s) = true.
Proof.
  induction s as [| ch s IH]; intros H n m.
  - destruct n, m; reflexivity.
  - simpl in H. apply andb_prop in H. destruct H as [Hc Hs].
    destruct n as [| n]; [destruct m as [| m] |]; simpl.
    + reflexivity.
    + rewrite Hc. simpl. apply IH, Hs.
    + apply IH, Hs.
Qed.

Lemma ascii_only_zeros (n : nat) : ascii_only (zeros n) = true.
Proof. induction n as [| n IH]; simpl; [reflexivity | exact IH]. Qed.

Lemma ascii_only_uint (d : Decimal.uint) :
  ascii_only (NilEmpty.string_of_uint d) = true.
Proof. induction d; simpl; auto. Qed.

Lemma ascii_only_digits (n : Z) : ascii_only (digits n) = true.
Proof.
  unfold digits, NilZero.string_of_uint.
  destruct (N.to_uint (Z.to_N n)); try reflexivity;
    apply ascii_only_uint.
Qed.

Lemma ascii_only_str_of_int (n : Z) : ascii_only (str_of_int n) = true.
Proof.
  unfold str_of_int. destruct (n <? 0).
  - apply ascii_only_app; [reflexivity | apply ascii_only_digits].
  - apply ascii_only_digits.
Qed.

Lemma ascii_only_exponent_text (x : Z) : ascii_only (exponent_text x) = true.
Proof.
  unfold exponent_text.
  apply ascii_only_app; [destruct (x <? 0); reflexivity |].
  apply ascii_only_app; [destruct (Z.abs x <? 10); reflexivity |].
  apply ascii_only_digits.
Qed.

Lemma ascii_only_layout (ds : string) (dp : Z) :
  ascii_only ds = true -> ascii_only (layout ds dp) = true.
Proof.
  intro H. unfold layout.
  destruct ((dp <=? -4) || (16 <? dp)).
  - destruct ds as [| d rest]; [reflexivity |].
    simpl in H. apply andb_prop in H. destruct H as [Hd Hrest].
    destruct rest as [| d' rest'].
    + simpl. rewrite Hd. apply ascii_only_exponent_text.
    + change (ascii_only (String d ("." ++ String d' rest' ++ exponent_text (dp - 1))) = true).
      apply (ascii_only_app (String d EmptyString)); [simpl; rewrite Hd; reflexivity |].
      apply (ascii_only_app "."); [reflexivity |].
      apply ascii_only_app; [exact Hrest | apply ascii_only_exponent_text].
  - destruct (dp <=? 0).
    + apply (ascii_only_app "0."); [reflexivity |].
      apply ascii_only_app; [apply ascii_only_zeros | exact H].
    + destruct (_ <=? dp).
      * apply ascii_only_app; [exact H |].
        apply ascii_only_app; [apply ascii_only_zeros | reflexivity].
      * apply ascii_only_app; [apply ascii_only_substring, H |].
        apply (ascii_only_app "."); [reflexivity |].
        apply ascii_only_substring, H.
Qed.

Lemma ascii_only_float_repr (f : spec_float) : ascii_only (float_repr f) = true.
Proof.
  destruct f as [s | s | | s m e]; try (destruct s; reflexivity).
  - reflexivity.
  - unfold float_repr.
    destruct (shortest 17 (decpt m e) 1 m e) as [c0 k0].
    destruct (drop_zeros 17 c0 k0) as [c k].
    apply ascii_only_app; [destruct s; reflexivity |].
    apply ascii_only_layout, ascii_only_digits.
Qed.

Lemma ascii_only_py_str (b : obj) : ascii_only (py_str b) = true.
Proof.
  destruct b as [| [|] | n | f | s | s | l]; simpl; try reflexivity.
  - apply ascii_only_str_of_int.
  - apply ascii_only_float_repr.
Qed.

(** Encoding [("(" + str(b))] yields the same characters as bytes. *)
Lemma encode_paren_str (b : obj) :
  encode_utf8 ("(" ++ py_str b) = ("(" ++ py_str b)%string.
Proof.
  apply encode_utf8_ascii.
  apply (ascii_only_app "("); [reflexivity | apply ascii_only_py_str].
Qed.

(** ** Bounds and paging *)

Lemma float_of_int_finite (n : Z) (f : spec_float) :
  float_of_int n = inr f -> is_infinity f = false.
Proof.
  unfold float_of_int.
  destruct (binary_normalize prec emax n 0 false); intro H;
    inversion H; reflexivity.
Qed.

Lemma as_double_infinite (b : obj) (f : spec_float) :
  as_double b = inr f -> is_infinity f = is_infinite b.
Proof.
  destruct b as [| x | n | g | s | s | l]; simpl; intro H;
    try discriminate.
  - apply float_of_int_finite in H. exact H.
  - apply float_of_int_finite in H. exact H.
  - inversion H. reflexivity.
Qed.

Lemma score_bound_inclusive (b : obj) (c : conn) :
  score_bound true b c = (inr (spec_score_bound true b), c).
Proof.
  unfold spec_score_bound. destruct (is_infinite b); reflexivity.
Qed.

Lemma score_bound_exclusive (b : obj) (c : conn) :
  score_bound false b c =
  match as_double b with
  | inl e => (inl e, c)
  | inr _ => (inr (spec_score_bound false b), c)
  end.
Proof.
  unfold score_bound, spec_score_bound, math_isinf.
  rewrite encode_paren_str.
  destruct (as_double b) as [e | f] eqn:E.
  - reflexivity.
  - rewrite <- (as_double_infinite b f E).
    destruct (is_infinity f); reflexivity.
Qed.

Lemma score_bound_fits (include : bool) (b : obj) (c : conn) :
  include || fits_float b = true ->
  score_bound include b c = (inr (spec_score_bound include b), c).
Proof.
  destruct include; intro H.
  - apply score_bound_inclusive.
  - rewrite score_bound_exclusive. unfold fits_float in H. simpl in H.
    destruct (as_double b); [discriminate | reflexivity].
Qed.

Lemma check_offset_count_ok (offset count : obj) (c : conn) :
  paging_ok offset count = true ->
  check_offset_count offset count c = (inr tt, c).
Proof.
  unfold paging_ok, check_offset_count. intro H.
  destruct offset, count; simpl in H; try discriminate; reflexivity.
Qed.

Lemma check_offset_count_one (offset count : obj) (c : conn) :
  one_missing offset count = true ->
  check_offset_count offset count c =
  (inl (TypeError "offset and count must both be specified"), c).
Proof.
  unfold one_missing, check_offset_count. intro H.
  destruct offset, count; simpl in H; try discriminate; reflexivity.
Qed.

(** What the code appends to its arguments is what [modifiers] says. *)
Lemma modifiers_paging (withscores : bool) (offset count : obj) :
  extend_limit (if withscores then [VBytes "WITHSCORES"] else [])
    offset count =
  modifiers withscores offset count.
Proof.
  unfold modifiers, extend_limit.
  destruct (is_None offset), (is_None count); simpl;
    try reflexivity; rewrite app_nil_r; reflexivity.
Qed.

Lemma modifiers_paging_plain (offset count : obj) :
  extend_limit [] offset count = modifiers false offset count.
Proof. exact (modifiers_paging false offset count). Qed.

Lemma lex_bound_bytes (sentinel : string) (include : bool) (s : string)
  (c : conn) :
  lex_bound sentinel include (VBytes s) c =
  (inr (VBytes (spec_lex_bound sentinel include s)), c).
Proof.
  unfold lex_bound, spec_lex_bound. simpl.
  destruct (s =? sentinel)%string, include; reflexivity.
Qed.

(** *** The score-range commands on well-formed arguments *)

Section ScoreRange.
Variables (key min max : obj) (include_min include_max : bool) (c : conn).
Hypothesis Hkey : is_None key = false.
Hypothesis Hmin : isinstance min [t_int; t_float] = true.
Hypothesis Hmax : isinstance max [t_int; t_float] = true.
Hypothesis Himin : include_min || fits_float min = true.
Hypothesis Himax : include_max || fits_float max = true.

Let bmin := spec_score_bound include_min min.
Let bmax := spec_score_bound include_max max.

Lemma zcount_sends :
  py_gt min max = inr false ->
  sends (zcount key min max include_min include_max) c
    "ZCOUNT" [key; bmin; bmax] (Fut (List.length c)).
Proof.
  intro Hgt. unfold sends, zcount.
  rewrite Hkey, Hmin, Hmax, Hgt. cbn [negb lift]. run.
  rewrite (bind_returns _ _ _ _ _ (score_bound_fits _ _ c Himin)).
  rewrite (bind_returns _ _ _ _ _ (score_bound_fits _ _ c Himax)).
  reflexivity.
Qed.

Lemma zremrangebyscore_sends :
  sends (zremrangebyscore key min max include_min include_max) c
    "ZREMRANGEBYSCORE" [key; bmin; bmax] (Fut (List.length c)).
Proof.
  unfold sends, zremrangebyscore.
  rewrite Hkey, Hmin, Hmax. cbn [negb]. run.
  rewrite (bind_returns _ _ _ _ _ (score_bound_fits _ _ c Himin)).
  rewrite (bind_returns _ _ _ _ _ (score_bound_fits _ _ c Himax)).
  reflexivity.
Qed.

Variables (withscores : bool) (offset count : obj).
Hypothesis Hpage : paging_ok offset count = true.

Lemma zrangebyscore_sends :
  sends (zrangebyscore key min max include_min include_max withscores
           offset count) c
    "ZRANGEBYSCORE" ([key; bmin; bmax] ++ modifiers withscores offset count)
    (ranged_future withscores (List.length c)).
Proof.
  unfold sends, zrangebyscore.
  rewrite Hkey, Hmin, Hmax. cbn [negb]. run.
  rewrite (bind_returns _ _ _ _ _ (check_offset_count_ok _ _ c Hpage)).
  rewrite (bind_returns _ _ _ _ _ (score_bound_fits _ _ c Himin)).
  rewrite (bind_returns _ _ _ _ _ (score_bound_fits _ _ c Himax)).
  run. cbv zeta. rewrite modifiers_paging. run.
  unfold ranged_future. destruct withscores; reflexivity.
Qed.

Lemma zrevrangebyscore_sends :
  sends (zrevrangebyscore key max min include_min include_max withscores
           offset count) c
    "ZREVRANGEBYSCORE" ([key; bmin; bmax] ++ modifiers withscores offset count)
    (ranged_future withscores (List.length c)).
Proof.
  unfold sends, zrevrangebyscore.
  rewrite Hkey, Hmin, Hmax. cbn [negb]. run.
  rewrite (bind_returns _ _ _ _ _ (check_offset_count_ok _ _ c Hpage)).
  rewrite (bind_returns _ _ _ _ _ (score_bound_fits _ _ c Himin)).
  rewrite (bind_returns _ _ _ _ _ (score_bound_fits _ _ c Himax)).
  run. cbv zeta. rewrite modifiers_paging. run.
  unfold ranged_future. destruct withscores; reflexivity.
Qed.
End ScoreRange.

(** *** The lexicographic commands on well-formed arguments *)

Section LexRange.
Variables (key : obj) (min max : string) (include_min include_max : bool)
  (c : conn).
Hypothesis Hkey : is_None key = false.

Let bmin := VBytes (spec_lex_bound "-" include_min min).
Let bmax := VBytes (spec_lex_bound "+" include_max max).

Lemma zlexcount_sends :
  sends (zlexcount key (VBytes min) (VBytes max) include_min include_max) c
    "ZLEXCOUNT" [key; bmin; bmax] (Fut (List.length c)).
Proof.
  unfold sends, zlexcount. rewrite Hkey. cbn [isinstance existsb instance_of orb negb]. run.
  rewrite (bind_returns _ _ _ _ _ (lex_bound_bytes _ _ _ c)).
  rewrite (bind_returns _ _ _ _ _ (lex_bound_bytes _ _ _ c)).
  reflexivity.
Qed.

Lemma zremrangebylex_sends :
  sends (zremrangebylex key (VBytes min) (VBytes max) include_min include_max) c
    "ZREMRANGEBYLEX" [key; bmin; bmax] (Fut (List.length c)).
Proof.
  unfold sends, zremrangebylex. rewrite Hkey. cbn [isinstance existsb instance_of orb negb]. run.
  rewrite (bind_returns _ _ _ _ _ (lex_bound_bytes _ _ _ c)).
  rewrite (bind_returns _ _ _ _ _ (lex_bound_bytes _ _ _ c)).
  reflexivity.
Qed.

Lemma zrangebylex_sends (offset count : obj) :
  paging_ok offset count = true ->
  sends (zrangebylex key (VBytes min) (VBytes max) include_min include_max
           offset count) c
    "ZRANGEBYLEX" ([key; bmin; bmax] ++ modifiers false offset count)
    (Fut (List.length c)).
Proof.
  intro Hpage.
  unfold sends, zrangebylex. rewrite Hkey. cbn [isinstance existsb instance_of orb negb]. run.
  rewrite (bind_returns _ _ _ _ _ (lex_bound_bytes _ _ _ c)).
  rewrite (bind_returns _ _ _ _ _ (lex_bound_bytes _ _ _ c)).
  rewrite (bind_returns _ _ _ _ _ (check_offset_count_ok _ _ c Hpage)).
  cbv zeta. rewrite modifiers_paging_plain. reflexivity.
Qed.
End LexRange.

(** ** Score-range bounds *)

Lemma spec_score_bound_infinite (include : bool) (b : obj) :
  is_infinite b = true -> spec_score_bound include b = b.
Proof. intro H. unfold spec_score_bound. rewrite H. reflexivity. Qed.

Lemma spec_score_bound_finite (include : bool) (b : obj) :
  is_infinite b = false ->
  spec_score_bound include b =
  if include then b else VBytes ("(" ++ py_str b).
Proof. intro H. unfold spec_score_bound. rewrite H. reflexivity. Qed.

Lemma raises_not_sends {A : Type} (m : M A) (c : conn) (e : exn)
  (command : string) (args : list obj) (r : A) :
  raises m c e -> ~ sends m c command args r.
Proof. unfold raises, sends. intros H H'. rewrite H in H'. discriminate H'. Qed.

(** C1.  The encoding stops short of an int beyond the range of a
    float.  [2^1024] is a finite numeric bound.  As an inclusive min
    it is sent unchanged; as an exclusive min it is not encoded by any
    of zcount, zrangebyscore, zremrangebyscore and zrevrangebyscore:
    [math.isinf] raises OverflowError and nothing is sent, in
    particular not the command with "(" and the decimal text of the
    bound. *)
Theorem score_bound_huge_int_overflows :
  isinstance huge_int [t_int; t_float] = true /\
  is_infinite huge_int = false /\
  py_gt huge_int pos_inf = inr false /\
  sends (zrangebyscore (VBytes "k") huge_int pos_inf true true false
           VNone VNone) []
    "ZRANGEBYSCORE" [VBytes "k"; huge_int; pos_inf] (Fut 0) /\
  raises (zcount (VBytes "k") huge_int pos_inf false true) []
    (OverflowError "int too large to convert to float") /\
  raises (zrangebyscore (VBytes "k") huge_int pos_inf false true false
            VNone VNone) []
    (OverflowError "int too large to convert to float") /\
  raises (zremrangebyscore (VBytes "k") huge_int pos_inf false true) []
    (OverflowError "int too large to convert to float") /\
  raises (zrevrangebyscore (VBytes "k") pos_inf huge_int false true false
            VNone VNone) []
    (OverflowError "int too large to convert to float") /\
  ~ sends (zrangebyscore (VBytes "k") huge_int pos_inf false true false
             VNone VNone) []
      "ZRANGEBYSCORE"
      [VBytes "k"; VBytes ("(" ++ str_of_int (2 ^ 1024)); pos_inf]
      (Fut 0).
Proof.
  split; [| split; [| split; [| split; [| split; [| split; [| split; [| split]]]]]]];
    try (vm_compute; reflexivity).
  apply (raises_not_sends _ _
           (OverflowError "int too large to convert to float")).
  vm_compute; reflexivity.
Qed.

(** The largest int that converts to a float is [2^1024 - 2^970 - 1];
    from [2^1024 - 2^970] on, and below its opposite, [float] and
    [math.isinf] overflow. *)
Lemma fits_float_boundary :
  fits_float (VInt (2 ^ 1024 - 2 ^ 970 - 1)) = true /\
  fits_float (VInt (2 ^ 1024 - 2 ^ 970)) = false /\
  fits_float (VInt (- (2 ^ 1024 - 2 ^ 970 - 1))) = true /\
  fits_float (VInt (- (2 ^ 1024 - 2 ^ 970))) = false /\
  (forall f, fits_float (VFloat f) = true) /\
  (forall b, fits_float (VBool b) = true).
Proof.
  split; [| split; [| split; [| split; [| split]]]];
    try (vm_compute; reflexivity).
  intros []; vm_compute; reflexivity.
Qed.

(** ** Lexicographic bounds *)

Lemma spec_lex_bound_other (sentinel : string) (include : bool) (b : string) :
  b <> sentinel ->
  spec_lex_bound sentinel include b =
  ((if include then "[" else "(") ++ b)%string.
Proof.
  intro H. unfold spec_lex_bound.
  apply String.eqb_neq in H. rewrite H. destruct include; reflexivity.
Qed.

(** C2.  zlexcount, zrangebylex and zremrangebylex, called with a key
    and bytes bounds (and, for zrangebylex, a valid offset/count pair),
    send min encoded against the sentinel "-" and max encoded against
    the sentinel "+": the sentinel passes through unchanged, any other
    bound is prefixed with "[" when its inclusive flag is true and
    with "(" when it is false. *)
Theorem lex_bounds_encoded
  (key : obj) (min max : string) (include_min include_max : bool)
  (offset count : obj) (c : conn) :
  is_None key = false ->
  paging_ok offset count = true ->
  ((forall include, spec_lex_bound "-" include "-" = "-"%string) /\
   (forall include, spec_lex_bound "+" include "+" = "+"%string) /\
   (forall sentinel b, b <> sentinel ->
      spec_lex_bound sentinel true b = ("[" ++ b)%string /\
      spec_lex_bound sentinel false b = ("(" ++ b)%string)) /\
  sends (zlexcount key (VBytes min) (VBytes max) include_min include_max) c
    "ZLEXCOUNT"
    [key; VBytes (spec_lex_bound "-" include_min min);
     VBytes (spec_lex_bound "+" include_max max)]
    (Fut (List.length c)) /\
  sends (zrangebylex key (VBytes min) (VBytes max) include_min include_max
           offset count) c
    "ZRANGEBYLEX"
    ([key; VBytes (spec_lex_bound "-" include_min min);
      VBytes (spec_lex_bound "+" include_max max)]
       ++ modifiers false offset count)
    (Fut (List.length c)) /\
  sends (zremrangebylex key (VBytes min) (VBytes max) include_min include_max) c
    "ZREMRANGEBYLEX"
    [key; VBytes (spec_lex_bound "-" include_min min);
     VBytes (spec_lex_bound "+" include_max max)]
    (Fut (List.length c)).
Proof.
  intros Hkey Hpage.
  split; [split; [| split] | split; [| split]].
  - intros []; reflexivity.
  - intros []; reflexivity.
  - intros sentinel b H.
    split; [exact (spec_lex_bound_other sentinel true b H)
           | exact (spec_lex_bound_other sentinel false b H)].
  - apply zlexcount_sends, Hkey.
  - apply zrangebylex_sends; assumption.
  - apply zremrangebylex_sends, Hkey.
Qed.

(** An exclusive "a" up to the sentinel "+", the flag of which is
    ignored. *)
Lemma lex_bounds_encoded_witness :
  zrangebylex (VBytes "k") (VBytes "a") (VBytes "+") false false
    VNone VNone [] =
  (inr (Fut 0),
   [Call "ZRANGEBYLEX" [VBytes "k"; VBytes "(a"; VBytes "+"]]).
Proof.
  exact (proj1 (proj2 (proj2
    (lex_bounds_encoded (VBytes "k") "a" "+" false false VNone VNone []
       eq_refl eq_refl)))).
Defined.

(** ** Ranges the wrong way round *)

Lemma py_gt_int (a b : Z) : py_gt (VInt a) (VInt b) = inr (b <? a).
Proof.
  unfold py_gt, as_xnum, xcompare. simpl.
  rewrite (Z.ltb_compare b a), (Z.compare_antisym a b).
  destruct (a ?= b); reflexivity.
Qed.

(** C6.  zcount called with a key and numeric bounds with min > max
    raises ValueError and executes nothing; in particular on every
    pair of ints with [max < min]. *)
Theorem zcount_min_gt_max
  (key : obj) (include_min include_max : bool) (c : conn) :
  is_None key = false ->
  (forall min max,
     isinstance min [t_int; t_float] = true ->
     isinstance max [t_int; t_float] = true ->
     py_gt min max = inr true ->
     raises (zcount key min max include_min include_max) c
       (ValueError "min could not be grater then max")) /\
  (forall min max : Z,
     max < min ->
     raises (zcount key (VInt min) (VInt max) include_min include_max) c
       (ValueError "min could not be grater then max")).
Proof.
  intro Hkey.
  assert (H : forall min max,
     isinstance min [t_int; t_float] = true ->
     isinstance max [t_int; t_float] = true ->
     py_gt min max = inr true ->
     raises (zcount key min max include_min include_max) c
       (ValueError "min could not be grater then max")).
  { intros min max Hmin Hmax Hgt. unfold raises, zcount.
    rewrite Hkey, Hmin, Hmax, Hgt. reflexivity. }
  split; [exact H |].
  intros min max Hlt. apply H; try reflexivity.
  rewrite py_gt_int. apply Z.ltb_lt in Hlt. rewrite Hlt. reflexivity.
Qed.

(** [zcount(key, min=5, max=1)]. *)
Lemma zcount_min_gt_max_witness :
  zcount (VBytes "k") (VInt 5) (VInt 1) true true [] =
  (inl (ValueError "min could not be grater then max"), []).
Proof.
  exact (proj1 (zcount_min_gt_max (VBytes "k") true true [] eq_refl)
           (VInt 5) (VInt 1) eq_refl eq_refl eq_refl).
Defined.

(** ** Unimplemented commands *)

(** C7.  zunionstore and zinterstore raise NotImplementedError on all
    arguments and leave the connection untouched. *)
Theorem store_commands_not_implemented
  (destkey numkeys key : obj) (keys : list obj) (c : conn) :
  raises (zunionstore destkey numkeys key keys) c NotImplementedError /\
  raises (zinterstore destkey numkeys key keys) c NotImplementedError.
Proof. split; reflexivity. Qed.

(** ** The wire order of the reversed read *)

Lemma score_bound_result (include : bool) (b : obj) (c : conn) :
  score_bound include b c = (inr (spec_score_bound include b), c) \/
  exists e, score_bound include b c = (inl e, c).
Proof.
  destruct include.
  - left. apply score_bound_inclusive.
  - rewrite score_bound_exclusive.
    destruct (as_double b) as [e | f]; [right; exists e |left]; reflexivity.
Qed.

Lemma check_offset_count_result (offset count : obj) (c : conn) :
  check_offset_count offset count c = (inr tt, c) \/
  exists msg, check_offset_count offset count c = (inl (TypeError msg), c).
Proof.
  unfold check_offset_count.
  destruct offset as [| | | | | |], count as [| | | | | |];
    try (left; reflexivity); right; eexists; reflexivity.
Qed.

Lemma zrevrangebyscore_log (key max min : obj)
  (include_min include_max withscores : bool) (offset count : obj) (c : conn) :
  range_log "ZREVRANGEBYSCORE" key
    (spec_score_bound include_min min) (spec_score_bound include_max max)
    (modifiers withscores offset count) c
    (zrevrangebyscore key max min include_min include_max withscores
       offset count c).
Proof.
  unfold zrevrangebyscore.
  destruct (is_None key); [reflexivity |].
  destruct (isinstance min [t_int; t_float]); [| reflexivity].
  destruct (isinstance max [t_int; t_float]); [| reflexivity].
  cbn [negb]. run.
  destruct (check_offset_count_result offset count c) as [H | [msg H]];
    [rewrite (bind_returns _ _ _ _ _ H) | rewrite (bind_fails _ _ _ _ _ H); reflexivity].
  destruct (score_bound_result include_min min c) as [H1 | [e H1]];
    [rewrite (bind_returns _ _ _ _ _ H1) | rewrite (bind_fails _ _ _ _ _ H1); reflexivity].
  destruct (score_bound_result include_max max c) as [H2 | [e H2]];
    [rewrite (bind_returns _ _ _ _ _ H2) | rewrite (bind_fails _ _ _ _ _ H2); reflexivity].
  run. cbv zeta. rewrite modifiers_paging. run.
  destruct withscores; reflexivity.
Qed.

Lemma zrangebyscore_log (key min max : obj)
  (include_min include_max withscores : bool) (offset count : obj) (c : conn) :
  range_log "ZRANGEBYSCORE" key
    (spec_score_bound include_min min) (spec_score_bound include_max max)
    (modifiers withscores offset count) c
    (zrangebyscore key min max include_min include_max withscores
       offset count c).
Proof.
  unfold zrangebyscore.
  destruct (is_None key); [reflexivity |].
  destruct (isinstance min [t_int; t_float]); [| reflexivity].
  destruct (isinstance max [t_int; t_float]); [| reflexivity].
  cbn [negb]. run.
  destruct (check_offset_count_result offset count c) as [H | [msg H]];
    [rewrite (bind_returns _ _ _ _ _ H) | rewrite (bind_fails _ _ _ _ _ H); reflexivity].
  destruct (score_bound_result include_min min c) as [H1 | [e H1]];
    [rewrite (bind_returns _ _ _ _ _ H1) | rewrite (bind_fails _ _ _ _ _ H1); reflexivity].
  destruct (score_bound_result include_max max c) as [H2 | [e H2]];
    [rewrite (bind_returns _ _ _ _ _ H2) | rewrite (bind_fails _ _ _ _ _ H2); reflexivity].
  run. cbv zeta. rewrite modifiers_paging. run.
  destruct withscores; reflexivity.
Qed.

(** Both reads go through the same checks in the same order, so they
    raise together and return together. *)
Lemma zrevrangebyscore_as_zrangebyscore (key max min : obj)
  (include_min include_max withscores : bool) (offset count : obj) (c : conn) :
  map call_args
    (snd (zrevrangebyscore key max min include_min include_max withscores
            offset count c)) =
  map call_args
    (snd (zrangebyscore key min max include_min include_max withscores
            offset count c)).
Proof.
  unfold zrevrangebyscore, zrangebyscore.
  destruct (is_None key); [reflexivity |].
  destruct (isinstance min [t_int; t_float]); [| reflexivity].
  destruct (isinstance max [t_int; t_float]); [| reflexivity].
  cbn [negb]. run.
  destruct (check_offset_count_result offset count c) as [H | [msg H]];
    [rewrite !(bind_returns _ _ _ _ _ H) | rewrite !(bind_fails _ _ _ _ _ H); reflexivity].
  destruct (score_bound_result include_min min c) as [H1 | [e H1]];
    [rewrite !(bind_returns _ _ _ _ _ H1) | rewrite !(bind_fails _ _ _ _ _ H1); reflexivity].
  destruct (score_bound_result include_max max c) as [H2 | [e H2]];
    [rewrite !(bind_returns _ _ _ _ _ H2) | rewrite !(bind_fails _ _ _ _ _ H2); reflexivity].
  run. destruct withscores; simpl; rewrite !map_app; reflexivity.
Qed.

(** C10.  Whatever its arguments, zrevrangebyscore either raises and
    sends nothing, or sends ZREVRANGEBYSCORE followed by key, the
    encoded min, the encoded max and the modifier flags, although its
    signature takes max before min; the arguments it sends are those
    zrangebyscore sends for the same min and max.  With max = 10 and
    min = 1 the wire carries key, 1, 10. *)
Theorem zrevrangebyscore_wire_order (key max min : obj)
  (include_min include_max withscores : bool) (offset count : obj) (c : conn) :
  range_log "ZREVRANGEBYSCORE" key
    (spec_score_bound include_min min) (spec_score_bound include_max max)
    (modifiers withscores offset count) c
    (zrevrangebyscore key max min include_min include_max withscores
       offset count c) /\
  range_log "ZRANGEBYSCORE" key
    (spec_score_bound include_min min) (spec_score_bound include_max max)
    (modifiers withscores offset count) c
    (zrangebyscore key min max include_min include_max withscores
       offset count c) /\
  map call_args
    (snd (zrevrangebyscore key max min include_min include_max withscores
            offset count c)) =
  map call_args
    (snd (zrangebyscore key min max include_min include_max withscores
            offset count c)) /\
  zrevrangebyscore (VBytes "k") (VInt 10) (VInt 1) true true false
    VNone VNone [] =
  (inr (Fut 0), [Call "ZREVRANGEBYSCORE" [VBytes "k"; VInt 1; VInt 10]]).
Proof.
  split; [apply zrevrangebyscore_log |].
  split; [apply zrangebyscore_log |].
  split; [apply zrevrangebyscore_as_zrangebyscore | reflexivity].
Qed.

(** ** Ranges the wrong way round, outside zcount *)

(** C8.  A range the wrong way round is not always sent.
    [2^1024 > 0] are finite numeric bounds.  With the inclusive flags
    zrangebyscore, zremrangebyscore and zrevrangebyscore send them as
    they are, where zcount raises ValueError; with the exclusive flag
    on min each of the three raises OverflowError locally, from
    [math.isinf], and sends nothing. *)
Theorem reversed_range_huge_int_raises :
  isinstance huge_int [t_int; t_float] = true /\
  is_infinite huge_int = false /\
  py_gt huge_int (VInt 0) = inr true /\
  sends (zrangebyscore (VBytes "k") huge_int (VInt 0) true true false
           VNone VNone) []
    "ZRANGEBYSCORE" [VBytes "k"; huge_int; VInt 0] (Fut 0) /\
  sends (zremrangebyscore (VBytes "k") huge_int (VInt 0) true true) []
    "ZREMRANGEBYSCORE" [VBytes "k"; huge_int; VInt 0] (Fut 0) /\
  sends (zrevrangebyscore (VBytes "k") (VInt 0) huge_int true true false
           VNone VNone) []
    "ZREVRANGEBYSCORE" [VBytes "k"; huge_int; VInt 0] (Fut 0) /\
  raises (zcount (VBytes "k") huge_int (VInt 0) true true) []
    (ValueError "min could not be grater then max") /\
  raises (zrangebyscore (VBytes "k") huge_int (VInt 0) false true false
            VNone VNone) []
    (OverflowError "int too large to convert to float") /\
  raises (zremrangebyscore (VBytes "k") huge_int (VInt 0) false true) []
    (OverflowError "int too large to convert to float") /\
  raises (zrevrangebyscore (VBytes "k") (VInt 0) huge_int false true false
            VNone VNone) []
    (OverflowError "int too large to convert to float").
Proof.
  split; [| split; [| split; [| split; [| split; [| split;
    [| split; [| split; [| split]]]]]]]];
    vm_compute; reflexivity.
Qed.

(** ** Offset and count *)

Lemma int_is_not_None (v : obj) :
  isinstance v [t_int] = true -> is_None v = false.
Proof. destruct v; simpl; intro H; try discriminate; reflexivity. Qed.

Lemma paging_ok_ints (offset count : obj) :
  isinstance offset [t_int] = true -> isinstance count [t_int] = true ->
  paging_ok offset count = true.
Proof.
  intros Ho Hc. unfold paging_ok. rewrite Ho, Hc. apply orb_true_r.
Qed.

Lemma modifiers_limit (withscores : bool) (offset count : obj) :
  isinstance offset [t_int] = true -> isinstance count [t_int] = true ->
  modifiers withscores offset count =
  (if withscores then [VBytes "WITHSCORES"] else []) ++
  [VBytes "LIMIT"; offset; count].
Proof.
  intros Ho Hc. unfold modifiers.
  rewrite (int_is_not_None _ Ho), (int_is_not_None _ Hc). reflexivity.
Qed.

Lemma zrangebylex_one_missing (key min max : obj)
  (include_min include_max : bool) (offset count : obj) (c : conn) :
  one_missing offset count = true ->
  exists msg,
    raises (zrangebylex key min max include_min include_max offset count) c
      (TypeError msg).
Proof.
  intro H. unfold raises, zrangebylex.
  destruct (is_None key); [eexists; reflexivity |].
  destruct min as [| | | | a | |]; try (eexists; reflexivity).
  destruct max as [| | | | b | |]; try (eexists; reflexivity).
  cbn [isinstance existsb instance_of orb negb]. run.
  rewrite (bind_returns _ _ _ _ _ (lex_bound_bytes _ _ _ c)).
  rewrite (bind_returns _ _ _ _ _ (lex_bound_bytes _ _ _ c)).
  rewrite (bind_fails _ _ _ _ _ (check_offset_count_one _ _ c H)).
  eexists; reflexivity.
Qed.

Lemma zrangebyscore_one_missing (key min max : obj)
  (include_min include_max withscores : bool) (offset count : obj)
  (c : conn) :
  one_missing offset count = true ->
  exists msg,
    raises (zrangebyscore key min max include_min include_max withscores
              offset count) c
      (TypeError msg).
Proof.
  intro H. unfold raises, zrangebyscore.
  destruct (is_None key); [eexists; reflexivity |].
  destruct (isinstance min [t_int; t_float]); [| eexists; reflexivity].
  destruct (isinstance max [t_int; t_float]); [| eexists; reflexivity].
  cbn [negb]. run.
  rewrite (bind_fails _ _ _ _ _ (check_offset_count_one _ _ c H)).
  eexists; reflexivity.
Qed.

Lemma zrevrangebyscore_one_missing (key max min : obj)
  (include_min include_max withscores : bool) (offset count : obj)
  (c : conn) :
  one_missing offset count = true ->
  exists msg,
    raises (zrevrangebyscore key max min include_min include_max withscores
              offset count) c
      (TypeError msg).
Proof.
  intro H. unfold raises, zrevrangebyscore.
  destruct (is_None key); [eexists; reflexivity |].
  destruct (isinstance min [t_int; t_float]); [| eexists; reflexivity].
  destruct (isinstance max [t_int; t_float]); [| eexists; reflexivity].
  cbn [negb]. run.
  rewrite (bind_fails _ _ _ _ _ (check_offset_count_one _ _ c H)).
  eexists; reflexivity.
Qed.

Lemma modifiers_both (withscores : bool) (offset count : obj) :
  is_None offset = false -> is_None count = false ->
  modifiers withscores offset count =
  (if withscores then [VBytes "WITHSCORES"] else []) ++
  [VBytes "LIMIT"; offset; count].
Proof. intros Ho Hc. unfold modifiers. rewrite Ho, Hc. reflexivity. Qed.

Lemma range_log_ends_with (command : string) (key emin emax : obj)
  (withscores : bool) (offset count : obj) (c : conn)
  (out : result future * conn) :
  is_None offset = false -> is_None count = false ->
  range_log command key emin emax (modifiers withscores offset count) c out ->
  ends_with [VBytes "LIMIT"; offset; count] c out.
Proof.
  intros Ho Hc. rewrite (modifiers_both withscores _ _ Ho Hc).
  destruct out as [[e | r] c']; simpl; intro H; [exact H |].
  exists command,
    ([key; emin; emax] ++ if withscores then [VBytes "WITHSCORES"] else []).
  rewrite <- app_assoc. exact H.
Qed.

Lemma zrangebylex_ends_with (key min max : obj)
  (include_min include_max : bool) (offset count : obj) (c : conn) :
  is_None offset = false -> is_None count = false ->
  ends_with [VBytes "LIMIT"; offset; count] c
    (zrangebylex key min max include_min include_max offset count c).
Proof.
  intros Ho Hc. unfold zrangebylex.
  destruct (is_None key); [reflexivity |].
  destruct min as [| | | | a | |]; try reflexivity.
  destruct max as [| | | | b | |]; try reflexivity.
  cbn [isinstance existsb instance_of orb negb]. run.
  rewrite (bind_returns _ _ _ _ _ (lex_bound_bytes _ _ a c)).
  rewrite (bind_returns _ _ _ _ _ (lex_bound_bytes _ _ b c)).
  destruct (check_offset_count_result offset count c) as [H | [msg H]];
    [rewrite (bind_returns _ _ _ _ _ H)
    | rewrite (bind_fails _ _ _ _ _ H); reflexivity].
  cbv zeta. unfold extend_limit. rewrite Ho, Hc. cbn [negb andb].
  eexists _, _. reflexivity.
Qed.

(** C5, amended.  For zrangebylex, zrangebyscore and zrevrangebyscore:
    when exactly one of offset and count is None the call raises a
    TypeError and executes nothing, whatever the other arguments.
    When neither is None, the call either raises and executes nothing,
    or sends one command whose arguments end with "LIMIT", offset,
    count, whatever the other arguments.  It sends the command, the
    key and the encoded bounds first, when offset and count are both
    ints, the key is not None and the bounds are accepted: bytes for
    zrangebylex; for zrangebyscore and zrevrangebyscore ints or floats
    of which each exclusive one is a float or an int that converts to
    a float without overflow. *)
Theorem offset_count_pairing
  (key min max : obj) (lexmin lexmax : string)
  (include_min include_max withscores : bool)
  (offset count : obj) (c : conn) :
  (one_missing offset count = true ->
   (exists msg,
      raises (zrangebylex key min max include_min include_max offset count) c
        (TypeError msg)) /\
   (exists msg,
      raises (zrangebyscore key min max include_min include_max withscores
                offset count) c
        (TypeError msg)) /\
   (exists msg,
      raises (zrevrangebyscore key max min include_min include_max withscores
                offset count) c
        (TypeError msg))) /\
  (is_None key = false ->
   isinstance offset [t_int] = true ->
   isinstance count [t_int] = true ->
   sends (zrangebylex key (VBytes lexmin) (VBytes lexmax)
            include_min include_max offset count) c
     "ZRANGEBYLEX"
     ([key; VBytes (spec_lex_bound "-" include_min lexmin);
       VBytes (spec_lex_bound "+" include_max lexmax)]
        ++ [VBytes "LIMIT"; offset; count])
     (Fut (List.length c)) /\
   (isinstance min [t_int; t_float] = true ->
    isinstance max [t_int; t_float] = true ->
    include_min || fits_float min = true ->
    include_max || fits_float max = true ->
    sends (zrangebyscore key min max include_min include_max withscores
             offset count) c
      "ZRANGEBYSCORE"
      ([key; spec_score_bound include_min min;
        spec_score_bound include_max max]
         ++ (if withscores then [VBytes "WITHSCORES"] else [])
         ++ [VBytes "LIMIT"; offset; count])
      (ranged_future withscores (List.length c)) /\
    sends (zrevrangebyscore key max min include_min include_max withscores
             offset count) c
      "ZREVRANGEBYSCORE"
      ([key; spec_score_bound include_min min;
        spec_score_bound include_max max]
         ++ (if withscores then [VBytes "WITHSCORES"] else [])
         ++ [VBytes "LIMIT"; offset; count])
      (ranged_future withscores (List.length c)))) /\
  (is_None offset = false ->
   is_None count = false ->
   ends_with [VBytes "LIMIT"; offset; count] c
     (zrangebylex key min max include_min include_max offset count c) /\
   ends_with [VBytes "LIMIT"; offset; count] c
     (zrangebyscore key min max include_min include_max withscores
        offset count c) /\
   ends_with [VBytes "LIMIT"; offset; count] c
     (zrevrangebyscore key max min include_min include_max withscores
        offset count c)).
Proof.
  split; [| split].
  - intro H. split; [| split].
    + apply zrangebylex_one_missing, H.
    + apply zrangebyscore_one_missing, H.
    + apply zrevrangebyscore_one_missing, H.
  - intros Hkey Ho Hc.
    pose proof (paging_ok_ints _ _ Ho Hc) as Hpage.
    split.
    + pose proof (zrangebylex_sends key lexmin lexmax include_min include_max
                    c Hkey offset count Hpage) as H.
      rewrite (modifiers_limit false _ _ Ho Hc) in H. exact H.
    + intros Hmin Hmax Himin Himax.
      rewrite <- (modifiers_limit withscores _ _ Ho Hc).
      split.
      * apply zrangebyscore_sends; assumption.
      * apply zrevrangebyscore_sends; assumption.
  - intros Ho Hc. split; [| split].
    + apply zrangebylex_ends_with; assumption.
    + apply (range_log_ends_with _ _ _ _ _ _ _ _ _ Ho Hc
               (zrangebyscore_log key min max include_min include_max
                  withscores offset count c)).
    + apply (range_log_ends_with _ _ _ _ _ _ _ _ _ Ho Hc
               (zrevrangebyscore_log key max min include_min include_max
                  withscores offset count c)).
Qed.

(** [zrangebyscore(key, offset=0)] raises; with [count=10] as well the
    command ends with LIMIT 0 10. *)
Lemma offset_count_pairing_witness :
  (exists msg,
     zrangebyscore (VBytes "k") neg_inf pos_inf true true false
       (VInt 0) VNone [] = (inl (TypeError msg), [])) /\
  zrangebyscore (VBytes "k") neg_inf pos_inf true true false
    (VInt 0) (VInt 10) [] =
  (inr (Fut 0),
   [Call "ZRANGEBYSCORE"
      [VBytes "k"; neg_inf; pos_inf; VBytes "LIMIT"; VInt 0; VInt 10]]).
Proof.
  pose proof (offset_count_pairing (VBytes "k") neg_inf pos_inf "-" "+"
                true true false (VInt 0) VNone []) as [H1 _].
  pose proof (offset_count_pairing (VBytes "k") neg_inf pos_inf "-" "+"
                true true false (VInt 0) (VInt 10) []) as [_ [H2 _]].
  split.
  - exact (proj1 (proj2 (H1 eq_refl))).
  - exact (proj1 (proj2 (H2 eq_refl eq_refl eq_refl)
                    eq_refl eq_refl eq_refl eq_refl)).
Defined.

(** The claim as stated fails when offset and count are both given
    but are not both ints: the bytes "0" as offset, next to the count
    10, makes each of the three commands raise TypeError and send
    nothing, where the claim has LIMIT, "0", 10 emitted. *)
Lemma offset_not_int_raises :
  is_None (VBytes "0") = false /\
  is_None (VInt 10) = false /\
  raises (zrangebylex (VBytes "k") (VBytes "-") (VBytes "+") true true
            (VBytes "0") (VInt 10)) []
    (TypeError "offset argument must be int") /\
  raises (zrangebyscore (VBytes "k") neg_inf pos_inf true true false
            (VBytes "0") (VInt 10)) []
    (TypeError "offset argument must be int") /\
  raises (zrevrangebyscore (VBytes "k") pos_inf neg_inf true true false
            (VBytes "0") (VInt 10)) []
    (TypeError "offset argument must be int") /\
  ~ sends (zrangebyscore (VBytes "k") neg_inf pos_inf true true false
             (VBytes "0") (VInt 10)) []
      "ZRANGEBYSCORE"
      [VBytes "k"; neg_inf; pos_inf; VBytes "LIMIT"; VBytes "0"; VInt 10]
      (Fut 0).
Proof.
  split; [| split; [| split; [| split; [| split]]]];
    try (vm_compute; reflexivity).
  apply (raises_not_sends _ _ (TypeError "offset argument must be int")).
  vm_compute; reflexivity.
Qed.

(** ** zadd *)

Lemma even_mod2 (n : nat) : Nat.even n = Nat.eqb (n mod 2) 0.
Proof.
  pose proof (Nat.mod_upper_bound n 2 ltac:(discriminate)) as H.
  rewrite (Nat.div_mod_eq n 2) at 1.
  rewrite Nat.add_comm, Nat.even_add_mul_2.
  destruct (n mod 2)%nat as [| [| k]]; try reflexivity. lia.
Qed.

Lemma odd_mod2 (n : nat) : Nat.odd n = negb (Nat.eqb (n mod 2) 0).
Proof. rewrite <- Nat.negb_even, even_mod2. reflexivity. Qed.

(** The items that [enumerate] numbers evenly, counting from [start]. *)
Lemma in_even_from (l : list obj) (start : nat) (v : obj) :
  In v (map snd (filter (fun p => Nat.eqb (fst p mod 2) 0)
                   (combine (seq start (List.length l)) l))) <->
  exists i, Nat.even (start + i) = true /\ nth_error l i = Some v.
Proof.
  revert start. induction l as [| a l IH]; intro start.
  - simpl. split; [intros [] | intros [i [_ H]]]. destruct i; discriminate.
  - cbn [List.length seq combine filter fst]. rewrite <- even_mod2.
    destruct (Nat.even start) eqn:E; cbn [map snd In]; rewrite IH; split.
    + intros [<- | [i [Hi Hn]]].
      * exists 0%nat. rewrite Nat.add_0_r. split; [exact E | reflexivity].
      * exists (S i). rewrite Nat.add_succ_r. split; assumption.
    + intros [[| i] [Hi Hn]].
      * left. simpl in Hn. congruence.
      * right. exists i. rewrite Nat.add_succ_r in Hi. split; assumption.
    + intros [i [Hi Hn]].
      exists (S i). rewrite Nat.add_succ_r. split; assumption.
    + intros [[| i] [Hi Hn]].
      * rewrite Nat.add_0_r in Hi. congruence.
      * exists i. rewrite Nat.add_succ_r in Hi. split; assumption.
Qed.

Lemma in_even_items (pairs : list obj) (v : obj) :
  In v (even_items pairs) <->
  exists i, Nat.even i = true /\ nth_error pairs i = Some v.
Proof. unfold even_items, enumerate. apply (in_even_from pairs 0 v). Qed.

Lemma bad_score_position (pairs : list obj) :
  existsb (fun s => negb (isinstance s [t_int; t_float])) (even_items pairs)
  = true <->
  exists i v,
    Nat.even i = true /\ nth_error pairs i = Some v /\
    isinstance v [t_int; t_float] = false.
Proof.
  rewrite existsb_exists. split.
  - intros [v [Hin Hv]]. apply in_even_items in Hin.
    destruct Hin as [i [Hi Hn]]. exists i, v.
    apply negb_true_iff in Hv. auto.
  - intros [i [v [Hi [Hn Hv]]]]. exists v. split.
    + apply in_even_items. exists i. auto.
    + rewrite Hv. reflexivity.
Qed.

(** [zadd] either refuses its arguments for one of the documented
    reasons, or sends them. *)
Lemma zadd_cases (key score member : obj) (pairs : list obj) (c : conn) :
  (zadd_rejects key score pairs /\
   exists msg, raises (zadd key score member pairs) c (TypeError msg)) \/
  (~ zadd_rejects key score pairs /\
   sends (zadd key score member pairs) c
     "ZADD" (key :: score :: member :: pairs) (Fut (List.length c))).
Proof.
  unfold raises, sends, zadd. cbv zeta.
  destruct (is_None key) eqn:Hk.
  { left. split; [left; destruct key; try discriminate; reflexivity |].
    eexists; reflexivity. }
  destruct (isinstance score [t_int; t_float]) eqn:Hs.
  2: { left. split; [right; left; exact Hs | eexists; reflexivity]. }
  destruct (Nat.eqb (List.length pairs mod 2) 0) eqn:Hl.
  2: { left. split; [| eexists; reflexivity].
       right; right; left. rewrite odd_mod2, Hl. reflexivity. }
  destruct (existsb (fun s => negb (isinstance s [t_int; t_float]))
              (even_items pairs)) eqn:He.
  { left. split; [| eexists; reflexivity].
    right; right; right. apply bad_score_position, He. }
  right. split; [| reflexivity].
  intros [H | [H | [H | H]]].
  - subst key. discriminate Hk.
  - congruence.
  - rewrite odd_mod2, Hl in H. discriminate H.
  - apply bad_score_position in H. congruence.
Qed.

(** C9.  zadd raises a TypeError, executing nothing, exactly when key
    is None, or score is not an int or float, or pairs has odd length,
    or some element of pairs at an even index is not an int or float;
    otherwise it sends ZADD with key, score, member and then the pairs
    in the order given. *)
Theorem zadd_type_errors (key score member : obj) (pairs : list obj)
  (c : conn) :
  ((exists msg, raises (zadd key score member pairs) c (TypeError msg)) <->
   zadd_rejects key score pairs) /\
  (~ zadd_rejects key score pairs ->
   sends (zadd key score member pairs) c
     "ZADD" (key :: score :: member :: pairs) (Fut (List.length c))).
Proof.
  destruct (zadd_cases key score member pairs c) as [[Hr He] | [Hn Hs]].
  - split; [split; intro; assumption | intro Hn; contradiction].
  - split; [split | intro; exact Hs].
    + intros [msg Hm]. unfold raises in Hm. unfold sends in Hs.
      rewrite Hs in Hm. discriminate Hm.
    + intro Hr. contradiction.
Qed.

(** One more pair is sent along; a member in a score position is
    refused. *)
Lemma zadd_type_errors_witness :
  zadd (VBytes "k") (VInt 1) (VBytes "a") [VInt 2; VBytes "b"] [] =
  (inr (Fut 0),
   [Call "ZADD" [VBytes "k"; VInt 1; VBytes "a"; VInt 2; VBytes "b"]]) /\
  exists msg,
    zadd (VBytes "k") (VInt 1) (VBytes "a") [VBytes "b"; VInt 2] [] =
    (inl (TypeError msg), []).
Proof.
  split.
  - apply (proj2 (zadd_type_errors (VBytes "k") (VInt 1) (VBytes "a")
                    [VInt 2; VBytes "b"] [])).
    intros [H | [H | [H | [i [v [Hi [Hn Hv]]]]]]]; try discriminate H.
    destruct i as [| [| [| i]]]; simpl in Hn, Hi; try discriminate;
      inversion Hn; subst v; discriminate Hv.
  - apply (proj1 (zadd_type_errors (VBytes "k") (VInt 1) (VBytes "a")
                    [VBytes "b"; VInt 2] [])).
    right; right; right. exists 0%nat, (VBytes "b").
    split; [reflexivity | split; reflexivity].
Defined.

(** ** Decimal text read back *)

(** One more digit [v] in front of the digits [d], read after [acc]. *)
Ltac next_digit IH acc k v :=
  destruct (IH (v + 10 * acc)%positive (k + 1)) as [k' [H Hk']]; exists k';
  split;
  [ cbn [NilEmpty.string_of_uint digitpart_more];
    match goal with
    | |- context [ digit_of ?ch ] =>
        change (digit_of ch) with (Some (Zpos v))
    end;
    cbv beta iota;
    replace (10 * Z.pos acc + Zpos v) with (Z.pos (v + 10 * acc)) by lia;
    exact H
  | rewrite Hk'; cbn [NilEmpty.string_of_uint String.length]; lia ].

(** Reading the digits of a decimal number continues the accumulator,
    counts them, and leaves nothing. *)
Lemma digitpart_more_uint_pos (d : Decimal.uint) (acc : positive) (k : Z) :
  exists k',
    digitpart_more (NilEmpty.string_of_uint d) (Zpos acc) k =
    (Zpos (Pos.of_uint_acc d acc), k', EmptyString) /\
    k' = k + Z.of_nat (String.length (NilEmpty.string_of_uint d)).
Proof.
  revert acc k. induction d; intros acc k; cbn [Pos.of_uint_acc].
  - exists k. split; [reflexivity | simpl; lia].
  - destruct (IHd (10 * acc)%positive (k + 1)) as [k' [H Hk']]. exists k'.
    split; [exact H |].
    rewrite Hk'. cbn [NilEmpty.string_of_uint String.length]. lia.
  - next_digit IHd acc k 1%positive.
  - next_digit IHd acc k 2%positive.
  - next_digit IHd acc k 3%positive.
  - next_digit IHd acc k 4%positive.
  - next_digit IHd acc k 5%positive.
  - next_digit IHd acc k 6%positive.
  - next_digit IHd acc k 7%positive.
  - next_digit IHd acc k 8%positive.
  - next_digit IHd acc k 9%positive.
Qed.

(** The first digit [v] of a number, zeros in front allowed. *)
Ltac first_digit d k v :=
  destruct (digitpart_more_uint_pos d v (k + 1)) as [k' [H Hk']]; exists k';
  split;
  [ exact H
  | rewrite Hk'; cbn [NilEmpty.string_of_uint String.length]; lia ].

(** The same from nothing read yet. *)
Lemma digitpart_more_uint (d : Decimal.uint) (k : Z) :
  exists k',
    digitpart_more (NilEmpty.string_of_uint d) 0 k =
    (Z.of_N (N.of_uint d), k', EmptyString) /\
    k' = k + Z.of_nat (String.length (NilEmpty.string_of_uint d)).
Proof.
  revert k. induction d; intro k; cbn [N.of_uint Pos.of_uint].
  - exists k. split; [reflexivity | simpl; lia].
  - destruct (IHd (k + 1)) as [k' [H Hk']]. exists k'.
    split; [exact H |].
    rewrite Hk'. cbn [NilEmpty.string_of_uint String.length]. lia.
  - first_digit d k 1%positive.
  - first_digit d k 2%positive.
  - first_digit d k 3%positive.
  - first_digit d k 4%positive.
  - first_digit d k 5%positive.
  - first_digit d k 6%positive.
  - first_digit d k 7%positive.
  - first_digit d k 8%positive.
  - first_digit d k 9%positive.
Qed.

Lemma digitpart_uint (d : Decimal.uint) :
  digitpart (NilZero.string_of_uint d) =
  Some (Z.of_N (N.of_uint d),
        Z.of_nat (String.length (NilZero.string_of_uint d)), EmptyString).
Proof.
  destruct d; [reflexivity | ..];
    match goal with
    | |- context [ NilZero.string_of_uint ?u ] =>
        destruct (digitpart_more_uint u 0) as [k [H Hk]]
    end;
    rewrite Z.add_0_l in Hk; rewrite Hk in H; exact (f_equal Some H).
Qed.

Lemma lstrip_no_space (s : string) : no_space s = true -> lstrip s = s.
Proof.
  destruct s as [| ch s]; simpl; [reflexivity |].
  intro H. apply andb_prop in H. destruct H as [H _].
  apply negb_true_iff in H. rewrite H. reflexivity.
Qed.

Lemma rstrip_no_space (s : string) : no_space s = true -> rstrip s = s.
Proof.
  induction s as [| ch s IH]; simpl; [reflexivity |].
  intro H. apply andb_prop in H. destruct H as [Hc Hs].
  apply negb_true_iff in Hc. rewrite (IH Hs), Hc.
  destruct s; reflexivity.
Qed.

Lemma no_space_uint (d : Decimal.uint) :
  no_space (NilEmpty.string_of_uint d) = true.
Proof. induction d; simpl; auto. Qed.

Lemma no_space_digits (n : Z) : no_space (digits n) = true.
Proof.
  unfold digits, NilZero.string_of_uint.
  destruct (N.to_uint (Z.to_N n)); try reflexivity; apply no_space_uint.
Qed.

Lemma sign_of_digits (n : Z) : sign_of (digits n) = (false, digits n).
Proof.
  unfold digits, NilZero.string_of_uint.
  destruct (N.to_uint (Z.to_N n)); reflexivity.
Qed.

Lemma digitpart_digits (n : Z) :
  0 <= n ->
  digitpart (digits n) =
  Some (n, Z.of_nat (String.length (digits n)), EmptyString).
Proof.
  intro H. unfold digits.
  rewrite digitpart_uint, DecimalN.Unsigned.of_to, Z2N.id by exact H.
  reflexivity.
Qed.

(** The sign and the digits of the decimal text of an int. *)
Lemma sign_of_str_of_int (n : Z) :
  sign_of (strip (str_of_int n)) = (n <? 0, digits (Z.abs n)).
Proof.
  unfold str_of_int, strip.
  destruct (n <? 0) eqn:E.
  - apply Z.ltb_lt in E.
    assert (Hs : no_space ("-" ++ digits (- n)) = true)
      by (simpl; apply no_space_digits).
    rewrite (lstrip_no_space _ Hs), (rstrip_no_space _ Hs).
    cbn [append sign_of]. rewrite Z.abs_neq by lia. reflexivity.
  - apply Z.ltb_ge in E.
    rewrite (lstrip_no_space _ (no_space_digits n)),
            (rstrip_no_space _ (no_space_digits n)), sign_of_digits.
    rewrite Z.abs_eq by exact E. reflexivity.
Qed.

Lemma cond_Zopp_abs (n : Z) : cond_Zopp (n <? 0) (Z.abs n) = n.
Proof.
  destruct (n <? 0) eqn:E; simpl.
  - apply Z.ltb_lt in E. lia.
  - apply Z.ltb_ge in E. lia.
Qed.

(** [int] reads the decimal text of an int back as that int, unless
    the text has more digits than [int] accepts. *)
Lemma int_of_text_str_of_int (n : Z) :
  int_of_text (str_of_int n) =
  if int_max_str_digits <? int_digits n then None else Some n.
Proof.
  unfold int_of_text. rewrite sign_of_str_of_int.
  rewrite (digitpart_digits (Z.abs n) (Z.abs_nonneg n)), cond_Zopp_abs.
  reflexivity.
Qed.

(** Distinct ints have distinct decimal texts. *)
Lemma str_of_int_injective (a b : Z) : str_of_int a = str_of_int b -> a = b.
Proof.
  intro H.
  pose proof (sign_of_str_of_int a) as Ha. rewrite H, sign_of_str_of_int in Ha.
  apply pair_equal_spec in Ha. destruct Ha as [Hs Hd].
  pose proof (digitpart_digits (Z.abs a) (Z.abs_nonneg a)) as Da.
  rewrite <- Hd, (digitpart_digits (Z.abs b) (Z.abs_nonneg b)) in Da.
  assert (Habs : Z.abs b = Z.abs a) by congruence.
  rewrite <- (cond_Zopp_abs a), <- (cond_Zopp_abs b), Hs, Habs. reflexivity.
Qed.

(** ** Reply decoders *)

Lemma int_or_float_text (v : obj) (t : string) :
  text_of v = Some t ->
  int_or_float v =
  match int_of_text t with
  | Some n => inr (VInt n)
  | None =>
      match float_of_text t with
      | Some f => inr (VFloat f)
      | None => inl (ValueError "could not convert string to float")
      end
  end.
Proof.
  destruct v as [| | | | b | s | l]; intro H; try discriminate H;
    unfold int_or_float, py_int, py_float; cbn [isinstance existsb instance_of orb negb];
    rewrite H; destruct (int_of_text t); try reflexivity;
    destruct (float_of_text t); reflexivity.
Qed.

Lemma zscore_sends (key member : obj) (c : conn) :
  is_None key = false ->
  sends (zscore key member) c "ZSCORE" [key; member]
    (wait_convert (Fut (List.length c)) conv_int_or_float).
Proof. intro H. unfold sends, zscore. rewrite H. reflexivity. Qed.

Lemma zincrby_sends (key increment member : obj) (c : conn) :
  is_None key = false ->
  isinstance increment [t_int; t_float] = true ->
  sends (zincrby key increment member) c "ZINCRBY" [key; increment; member]
    (wait_convert (Fut (List.length c)) conv_int_or_float).
Proof. intros H Hi. unfold sends, zincrby. rewrite H, Hi. reflexivity. Qed.

(** C3.  On a bytes or str reply, [int_or_float] returns the int that
    [int] parses when [int] accepts the text, and otherwise the float
    that [float] parses (ValueError when it is neither); a reply that
    is not text fails the assertion.  The decimal text of an int of at
    most 4300 digits decodes to that int, that of a longer one to the
    float [float] reads in it: 10^4300, of 4301 digits, decodes to the
    float infinity.  "10" decodes to the int 10 and "10.5" to the
    float 10.5.  zscore and zincrby wrap their future with this
    decoder. *)
Theorem int_or_float_decodes :
  (forall v t,
     text_of v = Some t ->
     int_or_float v =
     match int_of_text t with
     | Some n => inr (VInt n)
     | None =>
         match float_of_text t with
         | Some f => inr (VFloat f)
         | None => inl (ValueError "could not convert string to float")
         end
     end) /\
  (forall b, text_of (VBytes b) = Some b) /\
  (forall s, text_of (VStr s) = Some (to_ascii s)) /\
  (forall v, text_of v = None ->
     int_or_float v = inl (AssertionError "raw_value must be bytes")) /\
  (forall n, int_digits n <= int_max_str_digits ->
     int_or_float (VBytes (str_of_int n)) = inr (VInt n)) /\
  (forall n, int_max_str_digits < int_digits n ->
     int_or_float (VBytes (str_of_int n)) =
     match float_of_text (str_of_int n) with
     | Some f => inr (VFloat f)
     | None => inl (ValueError "could not convert string to float")
     end) /\
  int_or_float (VBytes (str_of_int (10 ^ 4300))) = inr pos_inf /\
  int_or_float (VBytes "10") = inr (VInt 10) /\
  int_or_float (VBytes "10.5") = inr (VFloat ten_and_a_half) /\
  convert conv_int_or_float = int_or_float /\
  (forall key member c,
     is_None key = false ->
     sends (zscore key member) c "ZSCORE" [key; member]
       (wait_convert (Fut (List.length c)) conv_int_or_float)) /\
  (forall key increment member c,
     is_None key = false ->
     isinstance increment [t_int; t_float] = true ->
     sends (zincrby key increment member) c
       "ZINCRBY" [key; increment; member]
       (wait_convert (Fut (List.length c)) conv_int_or_float)).
Proof.
  split; [exact int_or_float_text |].
  split; [reflexivity |].
  split; [reflexivity |].
  split; [intros v H; destruct v; try discriminate H; reflexivity |].
  split.
  { intros n Hn.
    rewrite (int_or_float_text (VBytes (str_of_int n)) (str_of_int n) eq_refl).
    rewrite int_of_text_str_of_int.
    apply Z.ltb_ge in Hn. rewrite Hn. reflexivity. }
  split.
  { intros n Hn.
    rewrite (int_or_float_text (VBytes (str_of_int n)) (str_of_int n) eq_refl).
    rewrite int_of_text_str_of_int.
    apply Z.ltb_lt in Hn. rewrite Hn. reflexivity. }
  split; [vm_compute; reflexivity |].
  split; [vm_compute; reflexivity |].
  split; [vm_compute; reflexivity |].
  split; [reflexivity |].
  split; [exact zscore_sends | exact zincrby_sends].
Qed.

(** The score "10.5" of a member, asked with zscore. *)
Lemma int_or_float_decodes_witness :
  zscore (VBytes "k") (VBytes "a") [] =
  (inr (Converted (Fut 0) conv_int_or_float),
   [Call "ZSCORE" [VBytes "k"; VBytes "a"]]) /\
  convert conv_int_or_float (VBytes "10.5") = inr (VFloat ten_and_a_half).
Proof.
  destruct int_or_float_decodes
    as (_ & _ & _ & _ & _ & _ & _ & _ & H & Hc & Hz & _).
  split.
  - exact (Hz (VBytes "k") (VBytes "a") [] eq_refl).
  - rewrite Hc. exact H.
Defined.

Lemma zip_it_it_flat (pairs : list (obj * obj)) :
  zip_it_it (flat pairs) = pairs.
Proof.
  induction pairs as [| [m s] r IH]; simpl; [| rewrite IH]; reflexivity.
Qed.

Lemma sum_pairs_decoded (pairs : list (obj * obj)) (ds acc : list obj) :
  Forall2 decoded pairs ds ->
  sum_pairs pairs acc = inr (acc ++ flat (combine (map fst pairs) ds)).
Proof.
  intro H. revert acc.
  induction H as [| [m s] d r ds Hd _ IH]; intro acc; simpl.
  - rewrite app_nil_r. reflexivity.
  - unfold decoded in Hd. simpl in Hd. rewrite Hd, IH, <- app_assoc.
    reflexivity.
Qed.

Lemma zrange_sends (key start stop : obj) (withscores : bool) (c : conn) :
  is_None key = false ->
  isinstance start [t_int] = true ->
  isinstance stop [t_int] = true ->
  sends (zrange key start stop withscores) c
    "ZRANGE"
    ([key; start; stop] ++ if withscores then [VBytes "WITHSCORES"] else [])
    (ranged_future withscores (List.length c)).
Proof.
  intros Hk H1 H2. unfold sends, zrange. rewrite Hk, H1, H2.
  destruct withscores; reflexivity.
Qed.

Lemma zrevrange_sends (key start stop : obj) (withscores : bool) (c : conn) :
  is_None key = false ->
  isinstance start [t_int] = true ->
  isinstance stop [t_int] = true ->
  sends (zrevrange key start stop withscores) c
    "ZREVRANGE"
    ([key; start; stop] ++ if withscores then [VBytes "WITHSCORES"] else [])
    (ranged_future withscores (List.length c)).
Proof.
  intros Hk H1 H2. unfold sends, zrevrange. rewrite Hk, H1, H2.
  destruct withscores; reflexivity.
Qed.

(** C4.  On a flat reply [m1, s1, m2, s2, ...] whose scores decode
    with [int_or_float] to [d1, d2, ...], [pairs_int_or_float] returns
    the flat list [m1, d1, m2, d2, ...] in the same order.  It is the
    converter that zrange, zrevrange, zrangebyscore and
    zrevrangebyscore attach to their future when withscores is true. *)
Theorem pairs_int_or_float_decodes
  (pairs : list (obj * obj)) (ds : list obj) :
  Forall2 decoded pairs ds ->
  pairs_int_or_float (VList (flat pairs)) =
  inr (VList (flat (combine (map fst pairs) ds))) /\
  convert conv_pairs_int_or_float = pairs_int_or_float /\
  (forall n,
     ranged_future true n = wait_convert (Fut n) conv_pairs_int_or_float) /\
  (forall key start stop c,
     is_None key = false ->
     isinstance start [t_int] = true ->
     isinstance stop [t_int] = true ->
     sends (zrange key start stop true) c
       "ZRANGE" [key; start; stop; VBytes "WITHSCORES"]
       (wait_convert (Fut (List.length c)) conv_pairs_int_or_float) /\
     sends (zrevrange key start stop true) c
       "ZREVRANGE" [key; start; stop; VBytes "WITHSCORES"]
       (wait_convert (Fut (List.length c)) conv_pairs_int_or_float)) /\
  (forall key min max include_min include_max offset count c,
     is_None key = false ->
     isinstance min [t_int; t_float] = true ->
     isinstance max [t_int; t_float] = true ->
     include_min || fits_float min = true ->
     include_max || fits_float max = true ->
     paging_ok offset count = true ->
     (exists args,
        sends (zrangebyscore key min max include_min include_max true
                 offset count) c
          "ZRANGEBYSCORE" args
          (wait_convert (Fut (List.length c)) conv_pairs_int_or_float)) /\
     (exists args,
        sends (zrevrangebyscore key max min include_min include_max true
                 offset count) c
          "ZREVRANGEBYSCORE" args
          (wait_convert (Fut (List.length c)) conv_pairs_int_or_float))).
Proof.
  intro H.
  split; [| split; [reflexivity | split; [reflexivity | split]]].
  - unfold pairs_int_or_float. cbn [py_iter].
    rewrite zip_it_it_flat, (sum_pairs_decoded pairs ds [] H). reflexivity.
  - intros key start stop c Hk H1 H2. split.
    + exact (zrange_sends key start stop true c Hk H1 H2).
    + exact (zrevrange_sends key start stop true c Hk H1 H2).
  - intros key min max include_min include_max offset count c
      Hk Hmin Hmax Himin Himax Hpage.
    split; eexists.
    + exact (zrangebyscore_sends key min max include_min include_max c
               Hk Hmin Hmax Himin Himax true offset count Hpage).
    + exact (zrevrangebyscore_sends key min max include_min include_max c
               Hk Hmin Hmax Himin Himax true offset count Hpage).
Qed.

(** The reply [b"a", b"1", b"b", b"2"] decodes to [b"a", 1, b"b", 2]. *)
Lemma pairs_int_or_float_decodes_witness :
  pairs_int_or_float
    (VList [VBytes "a"; VBytes "1"; VBytes "b"; VBytes "2"]) =
  inr (VList [VBytes "a"; VInt 1; VBytes "b"; VInt 2]).
Proof.
  refine (proj1 (pairs_int_or_float_decodes
    [(VBytes "a", VBytes "1"); (VBytes "b", VBytes "2")]
    [VInt 1; VInt 2] _)).
  repeat constructor.
Defined.

(** * Further properties *)

(** ** What every command does with the connection *)

Lemma isinstance_bytes (v : obj) :
  isinstance v [t_bytes] = true -> exists s, v = VBytes s.
Proof. destruct v; simpl; intro H; try discriminate H. eexists; reflexivity. Qed.

Lemma py_gt_numeric (a b : obj) :
  isinstance a [t_int; t_float] = true ->
  isinstance b [t_int; t_float] = true ->
  exists g, py_gt a b = inr g.
Proof.
  destruct a; simpl; intro Ha; try discriminate Ha;
    destruct b; simpl; intro Hb; try discriminate Hb;
    eexists; reflexivity.
Qed.

Lemma as_double_numeric (b : obj) (e : exn) :
  isinstance b [t_int; t_float] = true ->
  as_double b = inl e ->
  e = OverflowError "int too large to convert to float".
Proof.
  destruct b as [| x | n | f | s | s | l]; simpl; intros Hb H;
    try discriminate.
  - destruct x; vm_compute in H; discriminate H.
  - unfold float_of_int in H.
    destruct (binary_normalize prec emax n 0 false);
      inversion H; reflexivity.
Qed.

(** A bound that [isinstance] accepted fails to encode only when it is
    exclusive and does not convert to a float. *)
Lemma score_bound_fails (include : bool) (b : obj) (c c' : conn) (e : exn) :
  isinstance b [t_int; t_float] = true ->
  score_bound include b c = (inl e, c') ->
  e = OverflowError "int too large to convert to float" /\
  include = false /\ fits_float b = false.
Proof.
  intros Hb H. destruct include.
  - rewrite score_bound_inclusive in H. discriminate H.
  - rewrite score_bound_exclusive in H. unfold fits_float.
    destruct (as_double b) as [e' | f] eqn:E; [| discriminate H].
    inversion H; subst e' c'.
    split; [exact (as_double_numeric b e Hb E) | split; reflexivity].
Qed.

(** One step of the case analysis of a method body. *)
Ltac branch :=
  match goal with
  | |- context [ bind (raise_if ?b _) _ _ ] =>
      match b with
      | true => rewrite bind_raise_if_true
      | false => rewrite bind_raise_if_false
      | negb ?x =>
          destruct x eqn:?; cbn [negb];
          [ rewrite bind_raise_if_false | rewrite bind_raise_if_true ]
      | _ =>
          destruct b eqn:?;
          [ rewrite bind_raise_if_true | rewrite bind_raise_if_false ]
      end
  | |- context [ bind (check_offset_count ?o ?n) _ ?c ] =>
      let H := fresh "H" in
      destruct (check_offset_count_result o n c) as [H | [? H]];
      [ rewrite (bind_returns _ _ _ _ _ H)
      | rewrite (bind_fails _ _ _ _ _ H) ]
  | |- context [ bind (lex_bound ?s ?i (VBytes ?b)) _ ?c ] =>
      rewrite (bind_returns _ _ _ _ _ (lex_bound_bytes s i b c))
  | |- context [ bind (execute _ _) _ _ ] => rewrite bind_execute
  | |- context [ bind (ret _) _ _ ] => rewrite bind_ret
  end; cbn [negb].

(** The two ways a body ends: with a TypeError, or with its call. *)
Ltac settle :=
  first
    [ left; eexists; split; [eexists; reflexivity | reflexivity]
    | right; do 3 eexists; split; reflexivity ].

Section OneCall.
Variables (key member start stop min max offset count : obj).
Variables (include_min include_max withscores : bool).
Variables (members : list obj).

Lemma zcard_one_call : one_call call_of type_error (zcard key).
Proof. intro c. unfold zcard. repeat branch; settle. Qed.

Lemma zrank_one_call : one_call call_of type_error (zrank key member).
Proof. intro c. unfold zrank. repeat branch; settle. Qed.

Lemma zrevrank_one_call : one_call call_of type_error (zrevrank key member).
Proof. intro c. unfold zrevrank. repeat branch; settle. Qed.

Lemma zrem_one_call : one_call call_of type_error (zrem key member members).
Proof. intro c. unfold zrem. repeat branch; settle. Qed.

Lemma zscore_one_call : one_call call_of type_error (zscore key member).
Proof. intro c. unfold zscore. repeat branch; settle. Qed.

Lemma zincrby_one_call :
  one_call call_of type_error (zincrby key start member).
Proof. intro c. unfold zincrby. repeat branch; settle. Qed.

Lemma zadd_one_call :
  one_call call_of type_error (zadd key start member members).
Proof. intro c. unfold zadd. cbv zeta. repeat branch; settle. Qed.

Lemma zremrangebyrank_one_call :
  one_call call_of type_error (zremrangebyrank key start stop).
Proof. intro c. unfold zremrangebyrank. repeat branch; settle. Qed.

Lemma zrange_one_call :
  one_call call_of type_error (zrange key start stop withscores).
Proof.
  intro c. unfold zrange. cbv zeta. repeat branch;
    try settle; destruct withscores; settle.
Qed.

Lemma zrevrange_one_call :
  one_call call_of type_error (zrevrange key start stop withscores).
Proof.
  intro c. unfold zrevrange. cbv zeta. repeat branch;
    try settle; destruct withscores; settle.
Qed.

Lemma zscan_one_call :
  one_call scan_call_of type_error (zscan key start member count).
Proof. intro c. unfold zscan. cbv zeta. repeat branch; settle. Qed.

Lemma zlexcount_one_call :
  one_call call_of type_error
    (zlexcount key min max include_min include_max).
Proof.
  intro c. unfold zlexcount. branch; [settle |].
  branch; [| settle]. branch; [| settle].
  destruct (isinstance_bytes min) as [a ->]; [assumption |].
  destruct (isinstance_bytes max) as [b ->]; [assumption |].
  repeat branch; settle.
Qed.

Lemma zremrangebylex_one_call :
  one_call call_of type_error
    (zremrangebylex key min max include_min include_max).
Proof.
  intro c. unfold zremrangebylex. branch; [settle |].
  branch; [| settle]. branch; [| settle].
  destruct (isinstance_bytes min) as [a ->]; [assumption |].
  destruct (isinstance_bytes max) as [b ->]; [assumption |].
  repeat branch; settle.
Qed.

Lemma zrangebylex_one_call :
  one_call call_of type_error
    (zrangebylex key min max include_min include_max offset count).
Proof.
  intro c. unfold zrangebylex. branch; [settle |].
  branch; [| settle]. branch; [| settle].
  destruct (isinstance_bytes min) as [a ->]; [assumption |].
  destruct (isinstance_bytes max) as [b ->]; [assumption |].
  repeat branch; settle.
Qed.

(** A bound of a score-range command: it encodes, or it is an
    exclusive int beyond the floats. *)
Ltac bound :=
  match goal with
  | Hb : isinstance ?b [t_int; t_float] = true
    |- context [ bind (score_bound ?i ?b) _ ?c ] =>
      let H := fresh "H" in
      let e := fresh "e" in
      destruct (score_bound_result i b c) as [H | [e H]];
      [ rewrite (bind_returns _ _ _ _ _ H)
      | rewrite (bind_fails _ _ _ _ _ H);
        destruct (score_bound_fails _ _ _ _ _ Hb H) as (-> & ? & ?) ]
  end.

Ltac range_type_error :=
  left; eexists; split; [left; eexists; reflexivity | reflexivity].

Ltac range_overflow_min :=
  left; eexists;
  split; [right; split; [reflexivity | left; split; assumption]
         | reflexivity].

Ltac range_overflow_max :=
  left; eexists;
  split; [right; split; [reflexivity | right; split; assumption]
         | reflexivity].

Lemma zremrangebyscore_one_call :
  one_call call_of (range_error include_min include_max min max)
    (zremrangebyscore key min max include_min include_max).
Proof.
  intro c. unfold zremrangebyscore.
  branch; [range_type_error |].
  branch; [| range_type_error]. branch; [| range_type_error].
  bound; [| range_overflow_min].
  bound; [| range_overflow_max].
  repeat branch. settle.
Qed.

Lemma zrangebyscore_one_call :
  one_call call_of (range_error include_min include_max min max)
    (zrangebyscore key min max include_min include_max withscores
       offset count).
Proof.
  intro c. unfold zrangebyscore.
  branch; [range_type_error |].
  branch; [| range_type_error]. branch; [| range_type_error].
  branch; [| range_type_error].
  bound; [| range_overflow_min].
  bound; [| range_overflow_max].
  cbv zeta. repeat branch. destruct withscores; settle.
Qed.

Lemma zrevrangebyscore_one_call :
  one_call call_of (range_error include_min include_max min max)
    (zrevrangebyscore key max min include_min include_max withscores
       offset count).
Proof.
  intro c. unfold zrevrangebyscore.
  branch; [range_type_error |].
  branch; [| range_type_error]. branch; [| range_type_error].
  branch; [| range_type_error].
  bound; [| range_overflow_min].
  bound; [| range_overflow_max].
  cbv zeta. repeat branch. destruct withscores; settle.
Qed.

Lemma zcount_one_call :
  one_call call_of (count_error include_min include_max min max)
    (zcount key min max include_min include_max).
Proof.
  intro c. unfold zcount.
  branch; [left; eexists; split; [left | reflexivity]; left; eexists; reflexivity |].
  branch; [| left; eexists; split; [left | reflexivity]; left; eexists; reflexivity].
  branch; [| left; eexists; split; [left | reflexivity]; left; eexists; reflexivity].
  match goal with
  | Ha : isinstance min _ = true, Hb : isinstance max _ = true |- _ =>
      destruct (py_gt_numeric min max Ha Hb) as [g Hg]
  end.
  rewrite Hg. cbn [lift]. rewrite bind_ret.
  destruct g.
  { rewrite bind_raise_if_true. left. eexists.
    split; [right; split; [reflexivity | exact Hg] | reflexivity]. }
  rewrite bind_raise_if_false.
  bound.
  2: { left. eexists. split; [left; right; split; [reflexivity | left; split; assumption] | reflexivity]. }
  bound.
  2: { left. eexists. split; [left; right; split; [reflexivity | right; split; assumption] | reflexivity]. }
  repeat branch. settle.
Qed.
End OneCall.

(** X1.  Each of the fourteen commands that check their arguments by
    type either raises a TypeError before it executes anything, or
    executes exactly one command and returns the future of that very
    call; it never raises any other exception and never executes
    twice. *)
Theorem typed_commands_one_call
  (key member score start stop min max offset count cursor pattern : obj)
  (include_min include_max withscores : bool) (members : list obj) :
  one_call call_of type_error (zadd key score member members) /\
  one_call call_of type_error (zcard key) /\
  one_call call_of type_error (zincrby key score member) /\
  one_call call_of type_error
    (zlexcount key min max include_min include_max) /\
  one_call call_of type_error (zrange key start stop withscores) /\
  one_call call_of type_error
    (zrangebylex key min max include_min include_max offset count) /\
  one_call call_of type_error (zrank key member) /\
  one_call call_of type_error (zrem key member members) /\
  one_call call_of type_error
    (zremrangebylex key min max include_min include_max) /\
  one_call call_of type_error (zremrangebyrank key start stop) /\
  one_call call_of type_error (zrevrange key start stop withscores) /\
  one_call call_of type_error (zrevrank key member) /\
  one_call call_of type_error (zscore key member) /\
  one_call scan_call_of type_error (zscan key cursor pattern count).
Proof.
  repeat split.
  - apply zadd_one_call.
  - apply zcard_one_call.
  - apply zincrby_one_call.
  - apply zlexcount_one_call.
  - apply zrange_one_call.
  - apply zrangebylex_one_call.
  - apply zrank_one_call.
  - apply zrem_one_call.
  - apply zremrangebylex_one_call.
  - apply zremrangebyrank_one_call.
  - apply zrevrange_one_call.
  - apply zrevrank_one_call.
  - apply zscore_one_call.
  - apply zscan_one_call.
Qed.

(** X2.  Each score-range command either raises before it executes
    anything, or executes exactly one command and returns the future
    of that call.  What it raises is a TypeError, or OverflowError
    when an exclusive bound is an int that does not convert to a
    float, or, for zcount alone, ValueError when min > max. *)
Theorem range_commands_one_call
  (key min max offset count : obj)
  (include_min include_max withscores : bool) :
  one_call call_of (count_error include_min include_max min max)
    (zcount key min max include_min include_max) /\
  one_call call_of (range_error include_min include_max min max)
    (zrangebyscore key min max include_min include_max withscores
       offset count) /\
  one_call call_of (range_error include_min include_max min max)
    (zremrangebyscore key min max include_min include_max) /\
  one_call call_of (range_error include_min include_max min max)
    (zrevrangebyscore key max min include_min include_max withscores
       offset count).
Proof.
  split; [apply zcount_one_call |].
  split; [apply zrangebyscore_one_call |].
  split; [apply zremrangebyscore_one_call | apply zrevrangebyscore_one_call].
Qed.

(** ** Commands that are one another's siblings *)

(** X3.  zrevrange validates and sends exactly as zrange does, and
    zremrangebyrank as zrange without scores: the same exception or
    future and the same arguments, under another command name. *)
Theorem rank_commands_alike (key start stop : obj) (withscores : bool)
  (c : conn) :
  same_but_command (zrevrange key start stop withscores c)
    (zrange key start stop withscores c) /\
  same_but_command (zremrangebyrank key start stop c)
    (zrange key start stop false c).
Proof.
  unfold same_but_command, zrevrange, zrange, zremrangebyrank.
  destruct (is_None key); [repeat split |].
  destruct (isinstance start [t_int]); [| repeat split].
  destruct (isinstance stop [t_int]); [| repeat split].
  cbn [negb]. run. destruct withscores; cbn; rewrite !map_app; repeat split.
Qed.

(** X4.  zremrangebylex validates and sends exactly as zlexcount does,
    and zrangebylex without offset and count does too; zremrangebyscore
    does as zrangebyscore without scores, offset and count. *)
Theorem range_commands_alike (key min max : obj)
  (include_min include_max : bool) (c : conn) :
  same_but_command (zremrangebylex key min max include_min include_max c)
    (zlexcount key min max include_min include_max c) /\
  same_but_command
    (zrangebylex key min max include_min include_max VNone VNone c)
    (zlexcount key min max include_min include_max c) /\
  same_but_command
    (zremrangebyscore key min max include_min include_max c)
    (zrangebyscore key min max include_min include_max false VNone VNone c).
Proof.
  unfold same_but_command.
  split; [| split].
  - unfold zremrangebylex, zlexcount.
    destruct (is_None key); [repeat split |].
    destruct (isinstance min [t_bytes]) eqn:Hmin; [| repeat split].
    destruct (isinstance max [t_bytes]) eqn:Hmax; [| repeat split].
    destruct (isinstance_bytes min Hmin) as [a ->].
    destruct (isinstance_bytes max Hmax) as [b ->].
    cbn [negb]. run.
    rewrite !(bind_returns _ _ _ _ _ (lex_bound_bytes _ _ a c)).
    rewrite !(bind_returns _ _ _ _ _ (lex_bound_bytes _ _ b c)).
    cbn. rewrite !map_app. repeat split.
  - unfold zrangebylex, zlexcount.
    destruct (is_None key); [repeat split |].
    destruct (isinstance min [t_bytes]) eqn:Hmin; [| repeat split].
    destruct (isinstance max [t_bytes]) eqn:Hmax; [| repeat split].
    destruct (isinstance_bytes min Hmin) as [a ->].
    destruct (isinstance_bytes max Hmax) as [b ->].
    cbn [negb]. run.
    rewrite !(bind_returns _ _ _ _ _ (lex_bound_bytes _ _ a c)).
    rewrite !(bind_returns _ _ _ _ _ (lex_bound_bytes _ _ b c)).
    cbn. rewrite !map_app. repeat split.
  - unfold zremrangebyscore, zrangebyscore.
    destruct (is_None key); [repeat split |].
    destruct (isinstance min [t_int; t_float]); [| repeat split].
    destruct (isinstance max [t_int; t_float]); [| repeat split].
    cbn [negb]. run.
    rewrite (bind_returns _ _ _ _ _ (check_offset_count_ok VNone VNone c eq_refl)).
    destruct (score_bound_result include_min min c) as [H1 | [e H1]];
      [rewrite !(bind_returns _ _ _ _ _ H1)
      | rewrite !(bind_fails _ _ _ _ _ H1); repeat split].
    destruct (score_bound_result include_max max c) as [H2 | [e H2]];
      [rewrite !(bind_returns _ _ _ _ _ H2)
      | rewrite !(bind_fails _ _ _ _ _ H2); repeat split].
    cbn. rewrite !map_app. repeat split.
Qed.

(** ** What the decoders return, and when they fail *)

(** X5.  [int_or_float] returns nothing but an int or a float, fails
    the assertion exactly on a reply that is neither str nor bytes,
    and otherwise raises nothing but the ValueError of [float]. *)
Theorem int_or_float_outcomes (v : obj) :
  match int_or_float v with
  | inr d => is_number d = true /\ isinstance v [t_str; t_bytes] = true
  | inl (AssertionError _) => isinstance v [t_str; t_bytes] = false
  | inl (ValueError _) =>
      exists t, text_of v = Some t /\
                int_of_text t = None /\ float_of_text t = None
  | inl _ => False
  end.
Proof.
  destruct v as [| b | n | f | b | s | l]; try reflexivity.
  - rewrite (int_or_float_text (VBytes b) b eq_refl).
    destruct (int_of_text b) eqn:Ei; [split; reflexivity |].
    destruct (float_of_text b) eqn:Ef; [split; reflexivity |].
    exists b. repeat split; assumption.
  - rewrite (int_or_float_text (VStr s) (to_ascii s) eq_refl).
    destruct (int_of_text (to_ascii s)) eqn:Ei; [split; reflexivity |].
    destruct (float_of_text (to_ascii s)) eqn:Ef; [split; reflexivity |].
    exists (to_ascii s). repeat split; assumption.
Qed.

Lemma to_ascii_ascii (s : string) : ascii_only s = true -> to_ascii s = s.
Proof.
  induction s as [| ch s IH]; simpl; intro H; [reflexivity |].
  apply andb_prop in H. destruct H as [Hc Hs].
  unfold to_ascii_char. rewrite Hc, (IH Hs). reflexivity.
Qed.

(** X6.  A str reply made of ASCII characters decodes exactly as the
    bytes reply with the same characters. *)
Theorem int_or_float_str_as_bytes (s : string) :
  ascii_only s = true ->
  int_or_float (VStr s) = int_or_float (VBytes s).
Proof.
  intro H.
  rewrite (int_or_float_text (VStr s) (to_ascii s) eq_refl),
          (int_or_float_text (VBytes s) s eq_refl), (to_ascii_ascii s H).
  reflexivity.
Qed.

Lemma int_or_float_str_as_bytes_witness :
  int_or_float (VStr "10.5") = int_or_float (VBytes "10.5").
Proof. exact (int_or_float_str_as_bytes "10.5" eq_refl). Defined.

(** The pairs of a list and what is left over. *)
Lemma zip_it_it_shape (l : list obj) :
  exists tail,
    l = flat (zip_it_it l) ++ tail /\ (List.length tail <= 1)%nat.
Proof.
  assert (H : forall n l, (List.length l <= n)%nat ->
            exists tail,
              l = flat (zip_it_it l) ++ tail /\ (List.length tail <= 1)%nat).
  { induction n as [| n IH]; intros l0 Hl.
    - destruct l0; [| simpl in Hl; lia]. exists []. split; [reflexivity | simpl; lia].
    - destruct l0 as [| a [| b r]].
      + exists []. split; [reflexivity | simpl; lia].
      + exists [a]. split; [reflexivity | simpl; lia].
      + destruct (IH r) as [tail [Hr Ht]]; [simpl in Hl; lia |].
        exists tail. split; [| exact Ht].
        simpl. rewrite <- Hr. reflexivity. }
  apply (H (List.length l)). lia.
Qed.

Lemma sum_pairs_returns (pairs : list (obj * obj)) (acc r : list obj) :
  sum_pairs pairs acc = inr r ->
  exists ds,
    Forall2 decoded pairs ds /\ r = acc ++ flat (combine (map fst pairs) ds).
Proof.
  revert acc. induction pairs as [| [m s] ps IH]; intros acc H; simpl in H.
  - exists []. inversion H. split; [constructor | simpl; rewrite app_nil_r; reflexivity].
  - destruct (int_or_float s) as [e | d] eqn:E; [discriminate H |].
    destruct (IH _ H) as [ds [Hf Hr]].
    exists (d :: ds). split; [constructor; [exact E | exact Hf] |].
    rewrite Hr, <- app_assoc. reflexivity.
Qed.

Lemma decoded_number (pairs : list (obj * obj)) (ds : list obj) :
  Forall2 decoded pairs ds -> forallb is_number ds = true.
Proof.
  induction 1 as [| [m s] d ps ds Hd _ IH]; [reflexivity |].
  simpl. rewrite IH, andb_true_r.
  unfold decoded in Hd. simpl in Hd.
  pose proof (int_or_float_outcomes s) as Ho. rewrite Hd in Ho.
  exact (proj1 Ho).
Qed.

(** X7.  Whenever [pairs_int_or_float] returns on a list reply, the
    reply was a run of (member, score) pairs with at most one unpaired
    object after them; the result keeps each member, puts an int or a
    float in place of each score, in the same order, and leaves the
    unpaired object out. *)
Theorem pairs_int_or_float_returns (l : list obj) (r : obj) :
  pairs_int_or_float (VList l) = inr r ->
  exists pairs ds tail,
    l = flat pairs ++ tail /\ (List.length tail <= 1)%nat /\
    Forall2 decoded pairs ds /\ forallb is_number ds = true /\
    r = VList (flat (combine (map fst pairs) ds)).
Proof.
  unfold pairs_int_or_float. cbn [py_iter]. intro H.
  destruct (sum_pairs (zip_it_it l) []) as [e | r'] eqn:E; [discriminate H |].
  inversion H; subst r.
  destruct (sum_pairs_returns _ _ _ E) as [ds [Hf Hr]].
  destruct (zip_it_it_shape l) as [tail [Hl Ht]].
  exists (zip_it_it l), ds, tail.
  split; [exact Hl |]. split; [exact Ht |]. split; [exact Hf |].
  split; [exact (decoded_number _ _ Hf) |].
  rewrite Hr. reflexivity.
Qed.

Lemma pairs_int_or_float_returns_witness :
  exists pairs ds tail,
    [VBytes "a"; VBytes "1"; VBytes "b"] = flat pairs ++ tail /\
    (List.length tail <= 1)%nat /\
    Forall2 decoded pairs ds /\ forallb is_number ds = true /\
    VList [VBytes "a"; VInt 1] = VList (flat (combine (map fst pairs) ds)).
Proof.
  exact (pairs_int_or_float_returns [VBytes "a"; VBytes "1"; VBytes "b"]
           (VList [VBytes "a"; VInt 1]) eq_refl).
Defined.

Lemma zip_it_it_unpaired (pairs : list (obj * obj)) (x : obj) :
  zip_it_it (flat pairs ++ [x]) = pairs.
Proof.
  induction pairs as [| [m s] r IH]; simpl; [| rewrite IH]; reflexivity.
Qed.

(** X8.  An unpaired object at the end of the reply is dropped in
    silence: the result is that of the reply without it, even when the
    object could not be decoded. *)
Theorem pairs_int_or_float_drops_unpaired (pairs : list (obj * obj))
  (x : obj) :
  pairs_int_or_float (VList (flat pairs ++ [x])) =
  pairs_int_or_float (VList (flat pairs)).
Proof.
  unfold pairs_int_or_float. cbn [py_iter].
  rewrite zip_it_it_unpaired, zip_it_it_flat. reflexivity.
Qed.

Lemma sum_pairs_first_error (pairs : list (obj * obj)) (ds : list obj)
  (m s : obj) (rest : list (obj * obj)) (acc : list obj) (e : exn) :
  Forall2 decoded pairs ds ->
  int_or_float s = inl e ->
  sum_pairs (pairs ++ (m, s) :: rest) acc = inl e.
Proof.
  intros H He. revert acc.
  induction H as [| [m' s'] d ps ds' Hd _ IH]; intro acc; simpl.
  - rewrite He. reflexivity.
  - unfold decoded in Hd. simpl in Hd. rewrite Hd. apply IH.
Qed.

Lemma flat_app (p q : list (obj * obj)) : flat (p ++ q) = flat p ++ flat q.
Proof.
  induction p as [| [m s] r IH]; simpl; [| rewrite IH]; reflexivity.
Qed.

(** X9.  The first score that does not decode decides the outcome: its
    exception is raised whatever follows it, and no partial list is
    returned. *)
Theorem pairs_int_or_float_first_error (pairs : list (obj * obj))
  (ds : list obj) (m s : obj) (rest : list (obj * obj)) (e : exn) :
  Forall2 decoded pairs ds ->
  int_or_float s = inl e ->
  pairs_int_or_float (VList (flat (pairs ++ (m, s) :: rest))) = inl e.
Proof.
  intros H He. unfold pairs_int_or_float. cbn [py_iter].
  rewrite zip_it_it_flat, (sum_pairs_first_error pairs ds m s rest [] e H He).
  reflexivity.
Qed.

Lemma pairs_int_or_float_first_error_witness :
  pairs_int_or_float
    (VList [VBytes "a"; VBytes "1"; VBytes "b"; VNone; VBytes "c"; VBytes "x"])
  = inl (AssertionError "raw_value must be bytes").
Proof.
  refine (pairs_int_or_float_first_error [(VBytes "a", VBytes "1")]
            [VInt 1] (VBytes "b") VNone [(VBytes "c", VBytes "x")]
            (AssertionError "raw_value must be bytes") _ eq_refl).
  repeat constructor.
Defined.

(** ** The scan *)

(** X10.  On a list reply that starts with a cursor [int] accepts and
    a page of pairs whose scores decode, the converter of zscan returns
    the cursor as an int with the decoded page; what follows the page
    in the reply is ignored.  The decimal text of a cursor [k] of at
    most 4300 digits gives back [k]. *)
Theorem zscan_converter_decodes (cursor n : obj) (pairs : list (obj * obj))
  (ds rest : list obj) :
  py_int cursor = inr n ->
  Forall2 decoded pairs ds ->
  zscan_converter (VList (cursor :: VList (flat pairs) :: rest)) =
  inr (n, VList (flat (combine (map fst pairs) ds))) /\
  forall k : Z,
    int_digits k <= int_max_str_digits ->
    zscan_converter
      (VList (VBytes (str_of_int k) :: VList (flat pairs) :: rest)) =
    inr (VInt k, VList (flat (combine (map fst pairs) ds))).
Proof.
  intros Hc Hp.
  assert (Hpage : pairs_int_or_float (VList (flat pairs)) =
                  inr (VList (flat (combine (map fst pairs) ds)))).
  { unfold pairs_int_or_float. cbn [py_iter].
    rewrite zip_it_it_flat, (sum_pairs_decoded pairs ds [] Hp). reflexivity. }
  split.
  - unfold zscan_converter. cbn [getitem nth_error].
    rewrite Hc, Hpage. reflexivity.
  - intros k Hk. unfold zscan_converter. cbn [getitem nth_error py_int text_of].
    rewrite int_of_text_str_of_int, Hpage.
    apply Z.ltb_ge in Hk. rewrite Hk. reflexivity.
Qed.

Lemma zscan_converter_decodes_witness :
  zscan_converter
    (VList [VBytes "0"; VList [VBytes "a"; VBytes "1.5"]]) =
  inr (VInt 0, VList [VBytes "a"; VFloat (binary_normalize prec emax 3 (-1) false)]) /\
  zscan_converter
    (VList [VBytes (str_of_int 17); VList [VBytes "a"; VBytes "1.5"]]) =
  inr (VInt 17, VList [VBytes "a"; VFloat (binary_normalize prec emax 3 (-1) false)]).
Proof.
  assert (H : Forall2 decoded [(VBytes "a", VBytes "1.5")]
                [VFloat (binary_normalize prec emax 3 (-1) false)]).
  { constructor; [vm_compute; reflexivity | constructor]. }
  split.
  - exact (proj1 (zscan_converter_decodes (VBytes "0") (VInt 0)
                    [(VBytes "a", VBytes "1.5")]
                    [VFloat (binary_normalize prec emax 3 (-1) false)] []
                    eq_refl H)).
  - refine (proj2 (zscan_converter_decodes (VBytes "0") (VInt 0)
                     [(VBytes "a", VBytes "1.5")]
                     [VFloat (binary_normalize prec emax 3 (-1) false)] []
                     eq_refl H) 17 _).
    vm_compute. discriminate.
Defined.

(** X11.  The converter of zscan reads the cursor first: when [int]
    rejects it, that exception is raised whatever the page is; a list
    reply without a second object raises IndexError once the cursor
    has been read, and an empty one raises it at once. *)
Theorem zscan_converter_errors (first : obj) (rest : list obj) :
  zscan_converter (VList []) = inl (IndexError "list index out of range") /\
  (forall e, py_int first = inl e ->
     zscan_converter (VList (first :: rest)) = inl (Raised e)) /\
  (forall n, py_int first = inr n ->
     zscan_converter (VList [first]) =
     inl (IndexError "list index out of range")) /\
  (forall n page e, py_int first = inr n ->
     pairs_int_or_float page = inl e ->
     zscan_converter (VList (first :: page :: rest)) = inl (Raised e)).
Proof.
  split; [reflexivity |]. unfold zscan_converter. cbn [getitem nth_error].
  split; [| split].
  - intros e H. rewrite H. reflexivity.
  - intros n H. rewrite H. reflexivity.
  - intros n page e H Hp. rewrite H, Hp. reflexivity.
Qed.

Lemma zscan_converter_errors_witness :
  zscan_converter (VList [VNone; VList []]) =
  inl (Raised (TypeError "int() argument must be a string or a number")) /\
  zscan_converter (VList [VBytes "7"]) =
  inl (IndexError "list index out of range").
Proof.
  split.
  - exact (proj1 (proj2 (zscan_converter_errors VNone [VList []])) _ eq_refl).
  - exact (proj1 (proj2 (proj2 (zscan_converter_errors (VBytes "7") [])))
             (VInt 7) eq_refl).
Defined.

(** X12.  zscan checks nothing but the key: with a key it sends ZSCAN,
    the key and the cursor, then MATCH with the pattern when one is
    given, then COUNT with the count when one is given, whatever these
    objects are; it raises exactly when the key is None. *)
Theorem zscan_sends_unchecked (key cursor pattern count : obj) (c : conn) :
  (is_None key = false ->
   sends (zscan key cursor pattern count) c "ZSCAN"
     ([key; cursor] ++ scan_options pattern count)
     (ScanConverted (Fut (List.length c)))) /\
  ((exists e, raises (zscan key cursor pattern count) c e) <->
   key = VNone).
Proof.
  assert (Hs : is_None key = false ->
   sends (zscan key cursor pattern count) c "ZSCAN"
     ([key; cursor] ++ scan_options pattern count)
     (ScanConverted (Fut (List.length c)))).
  { intro Hk. unfold sends, zscan, scan_options. rewrite Hk.
    destruct (is_None pattern), (is_None count); reflexivity. }
  split; [exact Hs |]. split.
  - intros [e He]. destruct key; try reflexivity;
      specialize (Hs eq_refl); unfold sends in Hs; unfold raises in He;
      rewrite Hs in He; discriminate He.
  - intros ->. eexists. reflexivity.
Qed.

Lemma zscan_sends_unchecked_witness :
  zscan (VBytes "k") (VInt 0) (VBytes "a*") (VInt 10) [] =
  (inr (ScanConverted (Fut 0)),
   [Call "ZSCAN" [VBytes "k"; VInt 0; VBytes "MATCH"; VBytes "a*";
                  VBytes "COUNT"; VInt 10]]).
Proof.
  exact (proj1 (zscan_sends_unchecked (VBytes "k") (VInt 0) (VBytes "a*")
                  (VInt 10) []) eq_refl).
Defined.

(** ** Distinct bounds stay distinct on the wire *)

(** X13.  The encoding of a lexicographic bound can be read back: two
    bytes bounds with the same encoding are the same bytes, with the
    same flag unless they are the sentinel. *)
Theorem lex_bound_injective (sentinel : string) (i1 i2 : bool)
  (b1 b2 : string) (c : conn) :
  sentinel = "-" \/ sentinel = "+" ->
  lex_bound sentinel i1 (VBytes b1) c = lex_bound sentinel i2 (VBytes b2) c ->
  b1 = b2 /\ (b1 = sentinel \/ i1 = i2).
Proof.
  intros Hs H. rewrite !lex_bound_bytes in H.
  injection H as H. unfold spec_lex_bound in H.
  destruct (b1 =? sentinel)%string eqn:E1;
    destruct (b2 =? sentinel)%string eqn:E2.
  - apply String.eqb_eq in E1, E2. subst. auto.
  - apply String.eqb_eq in E1. subst b1.
    destruct Hs as [-> | ->]; destruct i2; discriminate H.
  - apply String.eqb_eq in E2. subst b2.
    destruct Hs as [-> | ->]; destruct i1; discriminate H.
  - destruct i1, i2; simpl in H; inversion H; auto.
Qed.

Lemma lex_bound_injective_witness :
  "a" = "a" /\ ("a" = "-" \/ false = false).
Proof.
  exact (lex_bound_injective "-" false false "a" "a" []
           (or_introl eq_refl) eq_refl).
Defined.

(** X14.  Two int bounds that a score-range command encodes alike are
    the same int with the same flag: the exclusive form "(n" is read
    back by [int] after the parenthesis, and never collides with an
    inclusive bound. *)
Theorem score_bound_int_injective (i1 i2 : bool) (a b : Z) (v : obj)
  (c : conn) :
  score_bound i1 (VInt a) c = (inr v, c) ->
  score_bound i2 (VInt b) c = (inr v, c) ->
  a = b /\ i1 = i2.
Proof.
  intros H1 H2.
  destruct (score_bound_result i1 (VInt a) c) as [R1 | [e R1]];
    [| rewrite R1 in H1; discriminate H1].
  destruct (score_bound_result i2 (VInt b) c) as [R2 | [e R2]];
    [| rewrite R2 in H2; discriminate H2].
  rewrite R1 in H1. rewrite R2 in H2.
  injection H1 as H1. injection H2 as H2. subst v.
  unfold spec_score_bound in H2. cbn [is_infinite] in H2.
  destruct i1, i2; cbn [py_str] in H2; try discriminate H2.
  - injection H2 as H2. auto.
  - injection H2 as H2. split; [symmetry; apply str_of_int_injective, H2 | reflexivity].
Qed.

Lemma score_bound_int_injective_witness : 5 = 5 /\ false = false.
Proof.
  exact (score_bound_int_injective false false 5 5 (VBytes "(5") []
           eq_refl eq_refl).
Defined.

(** ** The order check of zcount *)

(** X15.  On int bounds with the default inclusive flags, zcount sends
    ZCOUNT with the bounds as they are when min <= max, the bounds
    being equal included, and raises ValueError otherwise, however
    large the ints are. *)
Theorem zcount_int_bounds (key : obj) (min max : Z) (c : conn) :
  is_None key = false ->
  zcount key (VInt min) (VInt max) true true c =
  if max <? min
  then (inl (ValueError "min could not be grater then max"), c)
  else (inr (Fut (List.length c)),
        c ++ [Call "ZCOUNT" [key; VInt min; VInt max]]).
Proof.
  intro Hk. unfold zcount. rewrite Hk, py_gt_int.
  destruct (max <? min); reflexivity.
Qed.

Lemma zcount_int_bounds_witness :
  zcount (VBytes "k") (VInt 3) (VInt 3) true true [] =
  (inr (Fut 0), [Call "ZCOUNT" [VBytes "k"; VInt 3; VInt 3]]).
Proof. exact (zcount_int_bounds (VBytes "k") 3 3 [] eq_refl). Defined.

Lemma py_gt_nan_l (b : obj) :
  isinstance b [t_int; t_float] = true ->
  py_gt (VFloat S754_nan) b = inr false.
Proof. destruct b; simpl; intro H; try discriminate H; reflexivity. Qed.

Lemma py_gt_nan_r (b : obj) :
  isinstance b [t_int; t_float] = true ->
  py_gt b (VFloat S754_nan) = inr false.
Proof.
  destruct b as [| x | n | f | s | s | l]; simpl; intro H;
    try discriminate H; try reflexivity.
  destruct f; reflexivity.
Qed.

Lemma zcount_unordered (key min max : obj) (include_min include_max : bool)
  (c : conn) :
  (isinstance min [t_int; t_float] = true ->
   isinstance max [t_int; t_float] = true ->
   py_gt min max = inr false) ->
  same_but_command (zcount key min max include_min include_max c)
    (zremrangebyscore key min max include_min include_max c).
Proof.
  intro Hgt. unfold same_but_command, zcount, zremrangebyscore.
  destruct (is_None key); [split; reflexivity |].
  destruct (isinstance min [t_int; t_float]); [| split; reflexivity].
  destruct (isinstance max [t_int; t_float]); [| split; reflexivity].
  rewrite (Hgt eq_refl eq_refl). cbn [negb lift]. run.
  destruct (score_bound_result include_min min c) as [H1 | [e H1]];
    [rewrite !(bind_returns _ _ _ _ _ H1)
    | rewrite !(bind_fails _ _ _ _ _ H1); split; reflexivity].
  destruct (score_bound_result include_max max c) as [H2 | [e H2]];
    [rewrite !(bind_returns _ _ _ _ _ H2)
    | rewrite !(bind_fails _ _ _ _ _ H2); split; reflexivity].
  cbn. rewrite !map_app. split; reflexivity.
Qed.

(** X16.  A bound that is not-a-number passes the order check of
    zcount: every comparison with it is false, so with NaN as min or
    as max, whatever the other arguments are, zcount raises or sends
    exactly as zremrangebyscore, which has no order check, does: the
    same exception or future and the same arguments.  An exclusive NaN
    goes on the wire as "(nan"; next to an exclusive int beyond the
    floats the call raises OverflowError. *)
Theorem zcount_nan_passes (key b : obj) (include_min include_max : bool)
  (c : conn) :
  same_but_command
    (zcount key (VFloat S754_nan) b include_min include_max c)
    (zremrangebyscore key (VFloat S754_nan) b include_min include_max c) /\
  same_but_command
    (zcount key b (VFloat S754_nan) include_min include_max c)
    (zremrangebyscore key b (VFloat S754_nan) include_min include_max c) /\
  zcount (VBytes "k") (VFloat S754_nan) (VInt 1) false true [] =
  (inr (Fut 0), [Call "ZCOUNT" [VBytes "k"; VBytes "(nan"; VInt 1]]) /\
  zcount (VBytes "k") (VInt 1) (VFloat S754_nan) true true [] =
  (inr (Fut 0), [Call "ZCOUNT" [VBytes "k"; VInt 1; VFloat S754_nan]]) /\
  raises (zcount (VBytes "k") (VFloat S754_nan) huge_int true false) []
    (OverflowError "int too large to convert to float").
Proof.
  split; [| split; [| split; [| split]]].
  - apply zcount_unordered. intros _ Hb. apply py_gt_nan_l, Hb.
  - apply zcount_unordered. intros Hb _. apply py_gt_nan_r, Hb.
  - vm_compute; reflexivity.
  - vm_compute; reflexivity.
  - vm_compute; reflexivity.
Qed.

(** ** zadd, one pair more *)

Lemma nth_error_two_more (pairs : list obj) (s m v : obj) (i : nat) :
  nth_error (pairs ++ [s; m]) i = Some v ->
  nth_error pairs i = Some v \/
  (i = List.length pairs /\ v = s) \/
  (i = S (List.length pairs) /\ v = m).
Proof.
  intro H. destruct (Nat.lt_ge_cases i (List.length pairs)) as [Hlt | Hge].
  - left. rewrite nth_error_app1 in H by exact Hlt. exact H.
  - right. rewrite nth_error_app2 in H by exact Hge.
    destruct (i - List.length pairs)%nat as [| [| k]] eqn:E; simpl in H.
    + left. split; [lia | congruence].
    + right. split; [lia | congruence].
    + destruct k; discriminate H.
Qed.

(** X17.  When zadd sends its arguments, it also sends them with one
    more (score, member) pair at the end, provided the new score is an
    int or a float; the new pair goes last on the wire. *)
Theorem zadd_one_more_pair (key score member : obj) (pairs : list obj)
  (s m : obj) (c : conn) :
  sends (zadd key score member pairs) c
    "ZADD" (key :: score :: member :: pairs) (Fut (List.length c)) ->
  isinstance s [t_int; t_float] = true ->
  sends (zadd key score member (pairs ++ [s; m])) c
    "ZADD" (key :: score :: member :: pairs ++ [s; m]) (Fut (List.length c)).
Proof.
  intros Hs Hn.
  destruct (zadd_cases key score member pairs c) as [[_ [msg He]] | [Hok _]].
  { unfold raises in He. unfold sends in Hs. rewrite Hs in He. discriminate He. }
  destruct (zadd_cases key score member (pairs ++ [s; m]) c)
    as [[Hr _] | [_ H]]; [| exact H].
  exfalso. apply Hok.
  destruct Hr as [H | [H | [H | [i [v [Hi [Hv Hb]]]]]]].
  - left. exact H.
  - right. left. exact H.
  - right. right. left.
    rewrite length_app in H. simpl in H.
    rewrite Nat.add_comm in H. simpl in H.
    rewrite Nat.odd_succ, Nat.even_succ in H. exact H.
  - destruct (Nat.odd (List.length pairs)) eqn:Hodd;
      [right; right; left; exact Hodd |].
    destruct (nth_error_two_more pairs s m v i Hv)
      as [H | [[Hlen ->] | [Hlen ->]]].
    + right. right. right. exists i, v. auto.
    + congruence.
    + subst i. rewrite Nat.even_succ, Hodd in Hi. discriminate Hi.
Qed.

Lemma zadd_one_more_pair_witness :
  zadd (VBytes "k") (VInt 1) (VBytes "a") ([] ++ [VInt 2; VBytes "b"]) [] =
  (inr (Fut 0),
   [Call "ZADD" [VBytes "k"; VInt 1; VBytes "a"; VInt 2; VBytes "b"]]).
Proof.
  exact (zadd_one_more_pair (VBytes "k") (VInt 1) (VBytes "a") []
           (VInt 2) (VBytes "b") [] eq_refl eq_refl).
Defined.

(** ** Which check speaks first *)

(** X18.  A None key is reported before anything else: each of the
    eighteen commands that take a key to check raises the same
    TypeError and executes nothing, whatever its other arguments
    are. *)
Theorem none_key_first
  (member score start stop min max offset count cursor pattern : obj)
  (include_min include_max withscores : bool) (members : list obj)
  (c : conn) :
  let e := TypeError "key argument must not be None" in
  raises (zadd VNone score member members) c e /\
  raises (zcard VNone) c e /\
  raises (zcount VNone min max include_min include_max) c e /\
  raises (zincrby VNone score member) c e /\
  raises (zlexcount VNone min max include_min include_max) c e /\
  raises (zrange VNone start stop withscores) c e /\
  raises (zrangebylex VNone min max include_min include_max offset count) c e /\
  raises (zrangebyscore VNone min max include_min include_max withscores
            offset count) c e /\
  raises (zrank VNone member) c e /\
  raises (zrem VNone member members) c e /\
  raises (zremrangebylex VNone min max include_min include_max) c e /\
  raises (zremrangebyrank VNone start stop) c e /\
  raises (zremrangebyscore VNone min max include_min include_max) c e /\
  raises (zrevrange VNone start stop withscores) c e /\
  raises (zrevrangebyscore VNone max min include_min include_max withscores
            offset count) c e /\
  raises (zrevrank VNone member) c e /\
  raises (zscore VNone member) c e /\
  raises (zscan VNone cursor pattern count) c e.
Proof. cbv zeta. unfold raises. repeat (split; [reflexivity |]). reflexivity. Qed.

(** X19.  With a key, a bound of the wrong type is reported next, min
    before max: the lexicographic commands refuse a min that is not
    bytes (a str included) and the score-range commands one that is
    not an int or a float, each naming min, before they look at max,
    at the flags or at offset and count; nothing is executed. *)
Theorem min_type_checked_first
  (key min max offset count : obj)
  (include_min include_max withscores : bool) (c : conn) :
  is_None key = false ->
  (isinstance min [t_bytes] = false ->
   raises (zlexcount key min max include_min include_max) c
     (TypeError "min argument must be bytes") /\
   raises (zrangebylex key min max include_min include_max offset count) c
     (TypeError "min argument must be bytes") /\
   raises (zremrangebylex key min max include_min include_max) c
     (TypeError "min argument must be bytes")) /\
  (isinstance min [t_int; t_float] = false ->
   raises (zcount key min max include_min include_max) c
     (TypeError "min argument must be int or float") /\
   raises (zrangebyscore key min max include_min include_max withscores
             offset count) c
     (TypeError "min argument must be int or float") /\
   raises (zremrangebyscore key min max include_min include_max) c
     (TypeError "min argument must be int or float") /\
   raises (zrevrangebyscore key max min include_min include_max withscores
             offset count) c
     (TypeError "min argument must be int or float")).
Proof.
  intro Hk. unfold raises. split; intro Hm.
  - unfold zlexcount, zrangebylex, zremrangebylex. rewrite Hk, Hm.
    repeat split.
  - unfold zcount, zrangebyscore, zremrangebyscore, zrevrangebyscore.
    rewrite Hk, Hm. repeat split.
Qed.

Lemma min_type_checked_first_witness :
  zlexcount (VBytes "k") (VStr "a") VNone true true [] =
  (inl (TypeError "min argument must be bytes"), []) /\
  zrevrangebyscore (VBytes "k") VNone (VBytes "1") true true false
    VNone (VInt 3) [] =
  (inl (TypeError "min argument must be int or float"), []).
Proof.
  pose proof (min_type_checked_first (VBytes "k") (VStr "a") VNone VNone VNone
                true true false [] eq_refl) as [H1 _].
  pose proof (min_type_checked_first (VBytes "k") (VBytes "1") VNone VNone
                (VInt 3) true true false [] eq_refl) as [_ H2].
  split.
  - exact (proj1 (H1 eq_refl)).
  - exact (proj2 (proj2 (proj2 (H2 eq_refl)))).
Defined.

Lemma check_offset_count_types (offset count : obj) (c : conn) :
  is_None offset = false -> is_None count = false ->
  check_offset_count offset count c =
  if negb (isinstance offset [t_int])
  then (inl (TypeError "offset argument must be int"), c)
  else if negb (isinstance count [t_int])
  then (inl (TypeError "count argument must be int"), c)
  else (inr tt, c).
Proof.
  intros Ho Hc. unfold check_offset_count. rewrite Ho, Hc. cbn [negb andb orb].
  rewrite bind_raise_if_false.
  destruct (isinstance offset [t_int]); cbn [negb andb];
    [rewrite bind_raise_if_false | reflexivity].
  destruct (isinstance count [t_int]); reflexivity.
Qed.

(** X20.  When offset and count are both given but one of them is not
    an int (bools count as ints; bytes and floats do not), the paged
    commands raise a TypeError that names offset first, count
    otherwise, and execute nothing. *)
Theorem paging_types_checked
  (key min max : obj) (lexmin lexmax : string)
  (include_min include_max withscores : bool) (offset count : obj)
  (c : conn) :
  is_None key = false ->
  is_None offset = false ->
  is_None count = false ->
  isinstance offset [t_int] && isinstance count [t_int] = false ->
  raises (zrangebylex key (VBytes lexmin) (VBytes lexmax)
            include_min include_max offset count) c
    (paging_type_error offset count) /\
  (isinstance min [t_int; t_float] = true ->
   isinstance max [t_int; t_float] = true ->
   raises (zrangebyscore key min max include_min include_max withscores
             offset count) c
     (paging_type_error offset count) /\
   raises (zrevrangebyscore key max min include_min include_max withscores
             offset count) c
     (paging_type_error offset count)).
Proof.
  intros Hk Ho Hc Hbad.
  assert (Hcheck : check_offset_count offset count c =
                   (inl (paging_type_error offset count), c)).
  { rewrite (check_offset_count_types _ _ c Ho Hc). unfold paging_type_error.
    destruct (isinstance offset [t_int]); [| reflexivity].
    destruct (isinstance count [t_int]); [discriminate Hbad | reflexivity]. }
  unfold raises. split.
  - unfold zrangebylex. rewrite Hk.
    cbn [isinstance existsb instance_of orb negb]. run.
    rewrite (bind_returns _ _ _ _ _ (lex_bound_bytes _ _ _ c)).
    rewrite (bind_returns _ _ _ _ _ (lex_bound_bytes _ _ _ c)).
    rewrite (bind_fails _ _ _ _ _ Hcheck). reflexivity.
  - intros Hmin Hmax. unfold zrangebyscore, zrevrangebyscore.
    rewrite Hk, Hmin, Hmax. cbn [negb]. run.
    rewrite !(bind_fails _ _ _ _ _ Hcheck). split; reflexivity.
Qed.

Lemma paging_types_checked_witness :
  zrangebylex (VBytes "k") (VBytes "-") (VBytes "+") true true
    (VBytes "0") (VInt 10) [] =
  (inl (TypeError "offset argument must be int"), []).
Proof.
  exact (proj1 (paging_types_checked (VBytes "k") VNone VNone "-" "+"
                  true true false (VBytes "0") (VInt 10) []
                  eq_refl eq_refl eq_refl eq_refl)).
Defined.

(** ** The score-range commands on well-formed arguments *)

(** X21.  zcount, zrangebyscore, zremrangebyscore and
    zrevrangebyscore, called with a key that is not None, int or float
    bounds of which each exclusive one is a float or an int that
    converts to a float without overflow, and offset and count both
    None or both ints (and, for zcount, min not greater than max):
    the command is sent with the bounds
    [spec_score_bound include_min min] and
    [spec_score_bound include_max max].  That encoding leaves an
    infinite bound unchanged whatever the flag, leaves a finite
    inclusive bound unchanged, and turns a finite exclusive bound into
    the bytes "(" followed by [str] of the bound, which for an int is
    its decimal text. *)
Theorem score_bounds_encoded
  (key min max : obj) (include_min include_max withscores : bool)
  (offset count : obj) (c : conn) :
  is_None key = false ->
  isinstance min [t_int; t_float] = true ->
  isinstance max [t_int; t_float] = true ->
  include_min || fits_float min = true ->
  include_max || fits_float max = true ->
  paging_ok offset count = true ->
  ((forall include b, is_infinite b = true -> spec_score_bound include b = b) /\
   (forall b, is_infinite b = false -> spec_score_bound true b = b) /\
   (forall b, is_infinite b = false ->
      spec_score_bound false b = VBytes ("(" ++ py_str b)) /\
   (forall n, spec_score_bound false (VInt n) = VBytes ("(" ++ str_of_int n))) /\
  (py_gt min max = inr false ->
   sends (zcount key min max include_min include_max) c
     "ZCOUNT"
     [key; spec_score_bound include_min min; spec_score_bound include_max max]
     (Fut (List.length c))) /\
  sends (zrangebyscore key min max include_min include_max withscores
           offset count) c
    "ZRANGEBYSCORE"
    ([key; spec_score_bound include_min min; spec_score_bound include_max max]
       ++ modifiers withscores offset count)
    (ranged_future withscores (List.length c)) /\
  sends (zremrangebyscore key min max include_min include_max) c
    "ZREMRANGEBYSCORE"
    [key; spec_score_bound include_min min; spec_score_bound include_max max]
    (Fut (List.length c)) /\
  sends (zrevrangebyscore key max min include_min include_max withscores
           offset count) c
    "ZREVRANGEBYSCORE"
    ([key; spec_score_bound include_min min; spec_score_bound include_max max]
       ++ modifiers withscores offset count)
    (ranged_future withscores (List.length c)).
Proof.
  intros Hkey Hmin Hmax Himin Himax Hpage.
  split; [split; [| split; [| split]] |].
  - intros include b. apply spec_score_bound_infinite.
  - intros b H. rewrite spec_score_bound_finite; auto.
  - intros b H. rewrite spec_score_bound_finite; auto.
  - intro n. reflexivity.
  - split; [| split; [| split]].
    + intro Hgt. apply zcount_sends; assumption.
    + apply zrangebyscore_sends; assumption.
    + apply zremrangebyscore_sends; assumption.
    + apply zrevrangebyscore_sends; assumption.
Qed.

(** An exclusive [1.5] and an exclusive [3], paged and with scores;
    then an exclusive [2^49 + 0.75], half way between two decimals of
    sixteen digits, and an inclusive int beyond the floats. *)
Lemma score_bounds_encoded_witness :
  zrangebyscore (VBytes "k") (VFloat (binary_normalize prec emax 3 (-1) false))
    (VInt 3) false false true (VInt 0) (VInt 10) [] =
  (inr (Converted (Fut 0) conv_pairs_int_or_float),
   [Call "ZRANGEBYSCORE"
      [VBytes "k"; VBytes "(1.5"; VBytes "(3"; VBytes "WITHSCORES";
       VBytes "LIMIT"; VInt 0; VInt 10]]) /\
  zremrangebyscore (VBytes "k")
    (VFloat (binary_normalize prec emax (2 ^ 51 + 3) (-2) false)) huge_int
    false true [] =
  (inr (Fut 0),
   [Call "ZREMRANGEBYSCORE"
      [VBytes "k"; VBytes "(562949953421312.8"; huge_int]]).
Proof.
  split.
  - refine (eq_trans
      (proj1 (proj2 (proj2
        (score_bounds_encoded (VBytes "k")
           (VFloat (binary_normalize prec emax 3 (-1) false)) (VInt 3)
           false false true (VInt 0) (VInt 10) []
           eq_refl eq_refl eq_refl _ _ eq_refl)))) _);
      vm_compute; reflexivity.
  - refine (eq_trans
      (proj1 (proj2 (proj2 (proj2
        (score_bounds_encoded (VBytes "k")
           (VFloat (binary_normalize prec emax (2 ^ 51 + 3) (-2) false))
           huge_int false true false VNone VNone []
           eq_refl eq_refl eq_refl _ _ eq_refl))))) _);
      vm_compute; reflexivity.
Defined.

(** X22.  zrangebyscore, zremrangebyscore and zrevrangebyscore,
    called with a key that is not None, offset and count both None or
    both ints, and int or float bounds with min > max, where each
    exclusive bound is a float or an int that converts to a float
    without overflow, raise nothing and send the command with the
    encoded bounds; zcount on the same bounds raises ValueError. *)
Theorem reversed_range_is_sent
  (key min max : obj) (include_min include_max withscores : bool)
  (offset count : obj) (c : conn) :
  is_None key = false ->
  isinstance min [t_int; t_float] = true ->
  isinstance max [t_int; t_float] = true ->
  include_min || fits_float min = true ->
  include_max || fits_float max = true ->
  paging_ok offset count = true ->
  py_gt min max = inr true ->
  sends (zrangebyscore key min max include_min include_max withscores
           offset count) c
    "ZRANGEBYSCORE"
    ([key; spec_score_bound include_min min; spec_score_bound include_max max]
       ++ modifiers withscores offset count)
    (ranged_future withscores (List.length c)) /\
  sends (zremrangebyscore key min max include_min include_max) c
    "ZREMRANGEBYSCORE"
    [key; spec_score_bound include_min min; spec_score_bound include_max max]
    (Fut (List.length c)) /\
  sends (zrevrangebyscore key max min include_min include_max withscores
           offset count) c
    "ZREVRANGEBYSCORE"
    ([key; spec_score_bound include_min min; spec_score_bound include_max max]
       ++ modifiers withscores offset count)
    (ranged_future withscores (List.length c)) /\
  raises (zcount key min max include_min include_max) c
    (ValueError "min could not be grater then max").
Proof.
  intros Hkey Hmin Hmax Himin Himax Hpage Hgt.
  split; [| split; [| split]].
  - apply zrangebyscore_sends; assumption.
  - apply zremrangebyscore_sends; assumption.
  - apply zrevrangebyscore_sends; assumption.
  - unfold raises, zcount. rewrite Hkey, Hmin, Hmax, Hgt. reflexivity.
Qed.

(** min = 5 above max = 1, the lower bound exclusive. *)
Lemma reversed_range_is_sent_witness :
  zremrangebyscore (VBytes "k") (VInt 5) (VInt 1) false true [] =
  (inr (Fut 0),
   [Call "ZREMRANGEBYSCORE" [VBytes "k"; VBytes "(5"; VInt 1]]).
Proof.
  exact (proj1 (proj2
    (reversed_range_is_sent (VBytes "k") (VInt 5) (VInt 1) false true false
       VNone VNone [] eq_refl eq_refl eq_refl eq_refl eq_refl eq_refl
       eq_refl))).
Defined.
